(** * uDesktopDuplication: the per-monitor duplication engine (Duplicator)

    A shallow embedding of [Duplicator.cpp]: the session state machine, the
    acquire / copy / publish / release tick, the metadata extraction and the
    start / stop control of the capture thread.

    The desktop-duplication driver, the D3D11 device and the cursor object are
    external: every call made to them is recorded in an event trace, and what
    they return is an input of the embedded function that makes the call. *)

From Stdlib Require Import ZArith List Bool String Lia Sorted.
Import ListNotations.
Open Scope string_scope.
Open Scope list_scope.
Open Scope Z_scope.

(** ** HRESULT codes

    An [HRESULT] is a signed 32-bit integer; the facility codes below are the
    Windows SDK's, written as the SDK writes them (unsigned hexadecimal) and
    read back as signed. *)
Module HResult.

Definition HRESULT := Z.

Definition of_hex (u : Z) : HRESULT :=
  if u <? 2 ^ 31 then u else u - 2 ^ 32.

Definition S_OK : HRESULT := 0.
Definition E_INVALIDARG : HRESULT := Eval cbv in of_hex 0x80070057.
Definition E_ACCESSDENIED : HRESULT := Eval cbv in of_hex 0x80070005.
Definition DXGI_ERROR_INVALID_CALL : HRESULT := Eval cbv in of_hex 0x887A0001.
Definition DXGI_ERROR_MORE_DATA : HRESULT := Eval cbv in of_hex 0x887A0003.
Definition DXGI_ERROR_UNSUPPORTED : HRESULT := Eval cbv in of_hex 0x887A0004.
Definition DXGI_ERROR_NOT_CURRENTLY_AVAILABLE : HRESULT :=
  Eval cbv in of_hex 0x887A0022.
Definition DXGI_ERROR_ACCESS_LOST : HRESULT := Eval cbv in of_hex 0x887A0026.
Definition DXGI_ERROR_WAIT_TIMEOUT : HRESULT := Eval cbv in of_hex 0x887A0027.
Definition DXGI_ERROR_SESSION_DISCONNECTED : HRESULT :=
  Eval cbv in of_hex 0x887A0028.

(** [FAILED(hr)] is [hr < 0]. *)
Definition FAILED (hr : HRESULT) : bool := hr <? 0.

End HResult.
Import HResult.

(** ** Data *)

(** [UINT] arithmetic wraps modulo 2^32. *)
Definition UINT_wrap (z : Z) : Z := z mod 2 ^ 32.

(** [Duplicator::State].  The enum is declared in Duplicator.h; these are the
    enumerators Duplicator.cpp assigns and tests. *)
Inductive State : Set :=
| Ready
| Running
| InvalidArg
| AccessDenied
| Unsupported
| CurrentlyNotAvailable
| SessionDisconnected
| AccessLost
| Unknown.

Definition State_eqb (a b : State) : bool :=
  match a, b with
  | Ready, Ready | Running, Running | InvalidArg, InvalidArg
  | AccessDenied, AccessDenied | Unsupported, Unsupported
  | CurrentlyNotAvailable, CurrentlyNotAvailable
  | SessionDisconnected, SessionDisconnected
  | AccessLost, AccessLost | Unknown, Unknown => true
  | _, _ => false
  end.

(** [LUID]: the adapter identity compared by [CheckUnityAdapter]. *)
Record LUID : Set := mkLUID { LowPart : Z; HighPart : Z }.

(** What Duplicator.cpp reads from its [Monitor]. *)
Record Monitor : Set := mkMonitor {
  GetId : Z;
  AdapterLuid : LUID;
}.

(** A texture handle (a [ComPtr<ID3D11Texture2D>] that is not null). *)
Definition Texture := Z.

(** The fields of [DXGI_OUTDUPL_FRAME_INFO] that Duplicator.cpp reads. *)
Record FrameInfo : Set := mkFrameInfo {
  PointerPosition_Visible : bool;
  TotalMetadataBufferSize : Z;
}.

(** Modelled from the spec: the class [Buffer<T>] of Common.h is not among the
    sources.  The spec describes it as an owned, resizable byte region that
    grows to the largest size ever requested and never shrinks; it is modelled
    by its capacity, and it is empty when nothing was ever allocated. *)
Record Buffer : Set := mkBuffer { size_ : Z }.

Definition Size (b : Buffer) : Z := size_ b.

Definition Empty (b : Buffer) : bool := size_ b =? 0.

(** Modelled from the spec: [Buffer::ExpandIfNeeded] (Common.h, not among the
    sources) grows the buffer to at least the requested size and never
    shrinks it. *)
Definition ExpandIfNeeded (size : Z) (b : Buffer) : Buffer :=
  if size_ b <? size then mkBuffer size else b.

(** [Duplicator::Metadata]. *)
Record Metadata : Set := mkMetadata {
  buffer : Buffer;
  moveRectSize : Z;
  dirtyRectSize : Z;
}.

(** [Duplicator::Frame], in the order of the aggregate built by [Duplicate]. *)
Record Frame : Set := mkFrame {
  id : Z;
  texture : option Texture;
  info : FrameInfo;
  metaData : Metadata;
}.

(** [std::thread thread_], as seen by the controlling thread: no thread, a
    thread that was spawned and has not run its first statements yet, a
    thread inside the capture loop, or a thread that left the loop and was
    not joined yet.  The last three are joinable. *)
Inductive Thread : Set :=
| NoThread
| Spawned
| Looping
| Exited.

Definition joinable (t : Thread) : bool :=
  match t with NoThread => false | Spawned | Looping | Exited => true end.

(** The thread that calls [Start] and [Stop]: between two calls, or blocked
    in the [join()] of a [Stop] that it called itself, or of the [Stop] that
    [Start] calls. *)
Inductive Caller : Set :=
| Idle
| InStop
| InStart.

(** The members of [Duplicator] that Duplicator.cpp uses.  [device_] and
    [dupl_] record whether the pointer is non-null. *)
Record Duplicator : Set := mkDuplicator {
  monitor_ : Monitor;
  state_ : State;
  device_ : bool;
  dupl_ : bool;
  isFrameAcquired_ : bool;
  lastFrameId_ : Z;
  lastFrame_ : Frame;
  metaData_ : Metadata;
  shouldRun_ : bool;
  thread_ : Thread;
}.

Definition set_state_ (v : State) (d : Duplicator) : Duplicator :=
  mkDuplicator (monitor_ d) v (device_ d) (dupl_ d) (isFrameAcquired_ d)
    (lastFrameId_ d) (lastFrame_ d) (metaData_ d) (shouldRun_ d) (thread_ d).

Definition set_device_ (v : bool) (d : Duplicator) : Duplicator :=
  mkDuplicator (monitor_ d) (state_ d) v (dupl_ d) (isFrameAcquired_ d)
    (lastFrameId_ d) (lastFrame_ d) (metaData_ d) (shouldRun_ d) (thread_ d).

Definition set_dupl_ (v : bool) (d : Duplicator) : Duplicator :=
  mkDuplicator (monitor_ d) (state_ d) (device_ d) v (isFrameAcquired_ d)
    (lastFrameId_ d) (lastFrame_ d) (metaData_ d) (shouldRun_ d) (thread_ d).

Definition set_isFrameAcquired_ (v : bool) (d : Duplicator) : Duplicator :=
  mkDuplicator (monitor_ d) (state_ d) (device_ d) (dupl_ d) v
    (lastFrameId_ d) (lastFrame_ d) (metaData_ d) (shouldRun_ d) (thread_ d).

Definition set_lastFrameId_ (v : Z) (d : Duplicator) : Duplicator :=
  mkDuplicator (monitor_ d) (state_ d) (device_ d) (dupl_ d)
    (isFrameAcquired_ d) v (lastFrame_ d) (metaData_ d) (shouldRun_ d)
    (thread_ d).

Definition set_lastFrame_ (v : Frame) (d : Duplicator) : Duplicator :=
  mkDuplicator (monitor_ d) (state_ d) (device_ d) (dupl_ d)
    (isFrameAcquired_ d) (lastFrameId_ d) v (metaData_ d) (shouldRun_ d)
    (thread_ d).

Definition set_metaData_ (v : Metadata) (d : Duplicator) : Duplicator :=
  mkDuplicator (monitor_ d) (state_ d) (device_ d) (dupl_ d)
    (isFrameAcquired_ d) (lastFrameId_ d) (lastFrame_ d) v (shouldRun_ d)
    (thread_ d).

Definition set_shouldRun_ (v : bool) (d : Duplicator) : Duplicator :=
  mkDuplicator (monitor_ d) (state_ d) (device_ d) (dupl_ d)
    (isFrameAcquired_ d) (lastFrameId_ d) (lastFrame_ d) (metaData_ d) v
    (thread_ d).

Definition set_thread_ (v : Thread) (d : Duplicator) : Duplicator :=
  mkDuplicator (monitor_ d) (state_ d) (device_ d) (dupl_ d)
    (isFrameAcquired_ d) (lastFrameId_ d) (lastFrame_ d) (metaData_ d)
    (shouldRun_ d) v.

(** ** The world around a Duplicator *)

(** What the code does to its collaborators, in the order it does it. *)
Inductive Event : Set :=
| DebugLog (msg : string)
| DebugError (msg : string)
| CreateDevice
| DuplicateOutput
| AcquireNextFrame (timeout : Z)
| ReleaseFrame
| CopyResource (dst src : Texture)
| CursorUpdateBuffer
| CursorUpdateTexture (t : Texture)
| GetFrameMoveRects (bufferSize offset : Z)
| GetFrameDirtyRects (bufferSize offset : Z)
| ThreadSpawn
| ThreadJoin.

(** The Duplicator, the cursor owner kept by the MonitorManager, the trace
    of events so far (oldest first), and where the controlling thread is. *)
Record World : Set := mkWorld {
  self : Duplicator;
  cursorMonitorId : Z;
  events : list Event;
  caller : Caller;
}.

Definition modify (f : Duplicator -> Duplicator) (w : World) : World :=
  mkWorld (f (self w)) (cursorMonitorId w) (events w) (caller w).

Definition emit (e : Event) (w : World) : World :=
  mkWorld (self w) (cursorMonitorId w) (events w ++ [e]) (caller w).

Definition SetCursorMonitorId (i : Z) (w : World) : World :=
  mkWorld (self w) i (events w) (caller w).

Definition set_caller (c : Caller) (w : World) : World :=
  mkWorld (self w) (cursorMonitorId w) (events w) c.

(** ** Construction *)

(** [Duplicator::InitializeDevice].  [create_hr] is what
    [IsolatedD3D11Device::Create] returns. *)
Definition InitializeDevice (create_hr : HRESULT) (w : World) : World :=
  let w := modify (set_device_ true) w in
  let w := emit CreateDevice w in
  if FAILED create_hr then
    let w :=
      emit (DebugError
              "Monitor::Initialize() => IsolatedD3D11Device::Create() failed.")
           w in
    modify (set_state_ Unknown) w
  else w.

(** [Duplicator::InitializeDuplication].  [as_hr] is the result of casting the
    output to [IDXGIOutput1]; [hr] is what [DuplicateOutput] returns and
    [handle] tells whether it stored a duplication handle in [dupl_]. *)
Definition InitializeDuplication
    (as_hr hr : HRESULT) (handle : bool) (w : World) : World :=
  if FAILED as_hr then w
  else
    let w := emit DuplicateOutput w in
    let w := modify (set_dupl_ handle) w in
    if hr =? S_OK then
      emit (DebugLog "Duplicator::Initialize() => OK.")
           (modify (set_state_ Ready) w)
    else if hr =? E_INVALIDARG then
      emit (DebugError "Duplicator::Initialize() => Invalid arguments.")
           (modify (set_state_ InvalidArg) w)
    else if hr =? E_ACCESSDENIED then
      emit (DebugError "Duplicator::Initialize() => Access denied.")
           (modify (set_state_ AccessDenied) w)
    else if hr =? DXGI_ERROR_UNSUPPORTED then
      emit (DebugError "Duplicator::Initialize() => Unsupported display.")
           (modify (set_state_ Unsupported) w)
    else if hr =? DXGI_ERROR_NOT_CURRENTLY_AVAILABLE then
      emit (DebugError "Duplicator::Initialize() => Currently not available.")
           (modify (set_state_ CurrentlyNotAvailable) w)
    else if hr =? DXGI_ERROR_SESSION_DISCONNECTED then
      emit (DebugError "Duplicator::Initialize() => Session disconnected.")
           (modify (set_state_ SessionDisconnected) w)
    else
      emit (DebugError "Duplicator::Render() => Unknown Error.")
           (modify (set_state_ Unknown) w).

Definition isUnityAdapter (adapter unity : LUID) : bool :=
  (LowPart adapter =? LowPart unity) && (HighPart adapter =? HighPart unity).

(** [Duplicator::CheckUnityAdapter].  [unityAdapterLuid] is what
    [GetUnityAdapterLuid()] returns. *)
Definition CheckUnityAdapter (unityAdapterLuid : LUID) (w : World) : World :=
  if negb (isUnityAdapter (AdapterLuid (monitor_ (self w))) unityAdapterLuid)
  then
    let w :=
      emit (DebugError
              "Duplicator::CheckUnityAdapter() => The adapter is not same as Unity, and now this case is not supported.")
           w in
    modify (set_state_ Unsupported) w
  else w.

(** What the collaborators answer during construction. *)
Record InitInput : Set := mkInitInput {
  create_hr : HRESULT;
  output_as_hr : HRESULT;
  duplicateOutput_hr : HRESULT;
  duplicateOutput_handle : bool;
  unityAdapterLuid : LUID;
}.

(** [Duplicator::Duplicator].  [w] holds the object with its default member
    initialisers (Duplicator.h) and its [monitor_]. *)
Definition construct (i : InitInput) (w : World) : World :=
  let w := InitializeDevice (create_hr i) w in
  let w := InitializeDuplication (output_as_hr i) (duplicateOutput_hr i)
                                 (duplicateOutput_handle i) w in
  CheckUnityAdapter (unityAdapterLuid i) w.

(** ** Accessors *)

Definition IsRunning (d : Duplicator) : bool := State_eqb (state_ d) Running.

Definition IsError (d : Duplicator) : bool :=
  negb (State_eqb (state_ d) Ready) && negb (State_eqb (state_ d) Running).

Definition GetState (d : Duplicator) : State := state_ d.

Definition GetLastFrame (d : Duplicator) : Frame := lastFrame_ d.

(** ** Release *)

(** [Duplicator::Release].  [hr] is what [ReleaseFrame] returns when it is
    called. *)
Definition Release (hr : HRESULT) (w : World) : World :=
  if negb (isFrameAcquired_ (self w)) then w
  else
    let w := emit ReleaseFrame w in
    let w :=
      if FAILED hr then
        if hr =? DXGI_ERROR_ACCESS_LOST then
          modify (set_state_ AccessLost)
            (emit (DebugLog "Duplicator::Duplicate() => DXGI_ERROR_ACCESS_LOST.")
                  w)
        else if hr =? DXGI_ERROR_INVALID_CALL then
          emit (DebugError "Duplicator::Duplicate() => DXGI_ERROR_INVALID_CALL.")
               w
        else
          emit (DebugError "Duplicator::Duplicate() => Unknown Error.")
               (modify (set_state_ Unknown) w)
      else w in
    modify (set_isFrameAcquired_ false) w.

(** ** Cursor hook *)

(** [Duplicator::UpdateCursor]. *)
Definition UpdateCursor
    (texture : Texture) (frameInfo : FrameInfo) (w : World) : World :=
  let w :=
    if PointerPosition_Visible frameInfo
    then SetCursorMonitorId (GetId (monitor_ (self w))) w
    else w in
  if GetId (monitor_ (self w)) =? cursorMonitorId w then
    emit (CursorUpdateTexture texture) (emit CursorUpdateBuffer w)
  else w.

(** ** Metadata extraction *)

(** The answer to a rectangle request: the result code and, when the driver
    stored one, the byte count written through the size pointer. *)
Record RectsReply : Set := mkRectsReply {
  rects_hr : HRESULT;
  rects_size : option Z;
}.

Definition set_moveRectSize (v : Z) (m : Metadata) : Metadata :=
  mkMetadata (buffer m) v (dirtyRectSize m).

Definition set_dirtyRectSize (v : Z) (m : Metadata) : Metadata :=
  mkMetadata (buffer m) (moveRectSize m) v.

Definition set_buffer (v : Buffer) (m : Metadata) : Metadata :=
  mkMetadata v (moveRectSize m) (dirtyRectSize m).

Definition modify_metaData (f : Metadata -> Metadata) (w : World) : World :=
  modify (fun d => set_metaData_ (f (metaData_ d)) d) w.

(** The log line chosen by the [switch] of [UpdateMoveRects] and
    [UpdateDirtyRects]; [fn] is the function's name. *)
Definition rects_failure_log (fn : string) (hr : HRESULT) : Event :=
  if hr =? DXGI_ERROR_ACCESS_LOST then
    DebugLog ("Duplicator::" ++ fn ++ "() => DXGI_ERROR_ACCESS_LOST.")%string
  else if hr =? DXGI_ERROR_MORE_DATA then
    DebugError ("Duplicator::" ++ fn ++ "() => DXGI_ERROR_MORE_DATA.")%string
  else if hr =? DXGI_ERROR_INVALID_CALL then
    DebugError ("Duplicator::" ++ fn ++ "() => DXGI_ERROR_INVALID_CALL.")%string
  else if hr =? E_INVALIDARG then
    DebugError ("Duplicator::" ++ fn ++ "() => E_INVALIDARG.")%string
  else
    DebugError ("Duplicator::" ++ fn ++ "() => Unknown Error.")%string.

(** [Duplicator::UpdateMoveRects]. *)
Definition UpdateMoveRects (r : RectsReply) (w : World) : World :=
  let w := emit (GetFrameMoveRects (Size (buffer (metaData_ (self w)))) 0) w in
  let w :=
    match rects_size r with
    | Some n => modify_metaData (set_moveRectSize n) w
    | None => w
    end in
  if FAILED (rects_hr r)
  then emit (rects_failure_log "UpdateMoveRects" (rects_hr r)) w
  else w.

(** [Duplicator::UpdateDirtyRects].  The size passed is a [UINT]
    difference. *)
Definition UpdateDirtyRects (r : RectsReply) (w : World) : World :=
  let m := metaData_ (self w) in
  let w :=
    emit (GetFrameDirtyRects (UINT_wrap (Size (buffer m) - moveRectSize m))
                             (moveRectSize m)) w in
  let w :=
    match rects_size r with
    | Some n => modify_metaData (set_dirtyRectSize n) w
    | None => w
    end in
  if FAILED (rects_hr r)
  then emit (rects_failure_log "UpdateDirtyRects" (rects_hr r)) w
  else w.

(** [Duplicator::UpdateMetadata]. *)
Definition UpdateMetadata
    (totalBufferSize : Z) (move dirty : RectsReply) (w : World) : World :=
  let w :=
    modify_metaData
      (fun m => set_buffer (ExpandIfNeeded totalBufferSize (buffer m)) m) w in
  if negb (Empty (buffer (metaData_ (self w)))) then
    UpdateDirtyRects dirty (UpdateMoveRects move w)
  else w.

(** ** The tick *)

(** What the driver and the device answer during one [Duplicate]:
    [release_hr] for [ReleaseFrame] (asked only when a frame is held),
    [acquire_hr], [frameInfo] and [resource] for [AcquireNextFrame],
    [as_texture_hr] for the cast of the resource to a texture,
    [sharedTexture] for [GetCompatibleSharedTexture] ([None] is null), and the
    answers to the two rectangle requests. *)
Record TickInput : Set := mkTickInput {
  release_hr : HRESULT;
  acquire_hr : HRESULT;
  frameInfo : FrameInfo;
  resource : Texture;
  as_texture_hr : HRESULT;
  sharedTexture : option Texture;
  moveRects : RectsReply;
  dirtyRects : RectsReply;
}.

Section FrameCounter.

(** The integer type of [Frame::id] and [lastFrameId_] is declared in
    Duplicator.h, which is not among the sources ([Monitor] keeps its copy of
    the last frame id in a [UINT]); its width in bits is a parameter. *)
Variable id_bits : Z.

(** The value of [lastFrameId_] after [lastFrameId_++]. *)
Definition next_frame_id (n : Z) : Z := (n + 1) mod 2 ^ id_bits.

(** The block under the mutex at the end of [Duplicate]: the new frame takes
    the old value of [lastFrameId_], which is then incremented. *)
Definition publish
    (sharedTexture : Texture) (frameInfo : FrameInfo) (d : Duplicator)
    : Duplicator :=
  let frame :=
    mkFrame (lastFrameId_ d) (Some sharedTexture) frameInfo (metaData_ d) in
  set_lastFrame_ frame (set_lastFrameId_ (next_frame_id (lastFrameId_ d)) d).

(** The [switch] that [Duplicate] runs on a failed acquisition. *)
Definition acquire_failure (hr : HRESULT) (w : World) : World :=
  if hr =? DXGI_ERROR_ACCESS_LOST then
    modify (set_state_ AccessLost)
      (emit (DebugLog "Duplicator::Duplicate() => DXGI_ERROR_ACCESS_LOST.") w)
  else if hr =? DXGI_ERROR_WAIT_TIMEOUT then w
  else if hr =? DXGI_ERROR_INVALID_CALL then
    emit (DebugError "Duplicator::Duplicate() => DXGI_ERROR_INVALID_CALL.") w
  else if hr =? E_INVALIDARG then
    emit (DebugError "Duplicator::Duplicate() => E_INVALIDARG.") w
  else
    emit (DebugError "Duplicator::Duplicate() => Unknown Error.")
         (modify (set_state_ Unknown) w).

(** [Duplicator::Duplicate]. *)
Definition Duplicate (timeout : Z) (i : TickInput) (w : World) : World :=
  if negb (dupl_ (self w)) || negb (device_ (self w)) then w
  else
    let w := Release (release_hr i) w in
    let w := emit (AcquireNextFrame timeout) w in
    if FAILED (acquire_hr i) then acquire_failure (acquire_hr i) w
    else
      let w := modify (set_isFrameAcquired_ true) w in
      if FAILED (as_texture_hr i) then
        emit (DebugError
                "Duplicator::Duplicate() => IDXGIResource could not be converted to ID3D11Texture2D.")
             w
      else
        match sharedTexture i with
        | None =>
            emit (DebugError "Duplicator::Duplicate() => Shared texture is null.")
                 w
        | Some shared =>
            let w := emit (CopyResource shared (resource i)) w in
            let w := UpdateCursor shared (frameInfo i) w in
            let w :=
              UpdateMetadata (TotalMetadataBufferSize (frameInfo i))
                             (moveRects i) (dirtyRects i) w in
            modify (publish shared (frameInfo i)) w
        end.

(** ** The capture thread and its control

    The capture thread runs concurrently with the thread that calls [Start]
    and [Stop].  The two are embedded as an interleaving of steps: a call of
    [Start] or [Stop], up to the point where it returns or blocks in
    [join()]; the entry of the spawned thread, which is its first two
    assignments; one pass through the body of its [while] loop.  A [join()]
    on a thread that is in its loop finds it at the loop test; a [join()] on
    a thread that has not entered yet blocks, and returns when that thread
    has left its loop. *)

(** The thread's first statements: [state_ = Running; shouldRun_ = true]. *)
Definition thread_enter (d : Duplicator) : Duplicator :=
  set_shouldRun_ true (set_state_ Running d).

(** The statement after the loop. *)
Definition thread_leave (d : Duplicator) : Duplicator :=
  if State_eqb (state_ d) Running then set_state_ Ready d else d.

(** One pass: the loop test, then the body.  The result tells whether the
    loop goes on.  [frameRate] is what [GetFrameRate()] returns; the sleep
    that paces the loop is not represented. *)
Definition loop_pass (frameRate : Z) (i : TickInput) (w : World)
    : World * bool :=
  if negb (shouldRun_ (self w)) then (w, false)
  else
    let frameMilliSeconds := UINT_wrap (1000 / frameRate) in
    let w := Duplicate frameMilliSeconds i w in
    if negb (State_eqb (state_ (self w)) Running) then (w, false)
    else (w, true).

(** The spawned thread starts to run: its first statements. *)
Definition thread_entry (w : World) : World :=
  match thread_ (self w) with
  | Spawned => modify (set_thread_ Looping) (modify thread_enter w)
  | NoThread | Looping | Exited => w
  end.

(** A step of the capture thread, when there is one in the loop. *)
Definition capture_step (frameRate : Z) (i : TickInput) (w : World) : World :=
  match thread_ (self w) with
  | Looping =>
      let (w, continue) := loop_pass frameRate i w in
      if continue then w
      else modify (set_thread_ Exited) (modify thread_leave w)
  | NoThread | Spawned | Exited => w
  end.

(** [thread_.join()] returns, and [thread_ = std::thread(...)]. *)
Definition join_returns (w : World) : World :=
  modify (set_thread_ NoThread) (emit ThreadJoin w).

Definition spawn (w : World) : World :=
  modify (set_thread_ Spawned) (emit ThreadSpawn w).

(** [Duplicator::Stop], up to the point where it returns or blocks: the
    [join()] of a thread that has not entered yet does not return here. *)
Definition Stop (w : World) : World :=
  let w := modify (set_shouldRun_ false) w in
  match thread_ (self w) with
  | NoThread => w
  | Spawned => set_caller InStop w
  | Looping =>
      modify (set_thread_ NoThread) (modify thread_leave (emit ThreadJoin w))
  | Exited => modify (set_thread_ NoThread) (emit ThreadJoin w)
  end.

(** [Duplicator::Start], up to the point where it returns or blocks in the
    [join()] of its [Stop]. *)
Definition Start (w : World) : World :=
  if negb (State_eqb (state_ (self w)) Ready) then w
  else
    let w := Stop w in
    if joinable (thread_ (self w)) then set_caller InStart w
    else spawn w.

(** The blocked caller goes on when the thread it waits for has left:
    [join()] returns, then [Stop] returns, and [Start] spawns the new
    thread. *)
Definition resume (w : World) : World :=
  match caller w with
  | Idle => w
  | InStop => set_caller Idle (join_returns w)
  | InStart => set_caller Idle (spawn (join_returns w))
  end.

(** What can happen to a session, and a run of it.  A blocked caller makes
    no call. *)
Inductive Op : Set :=
| OpStart
| OpStop
| OpEnter
| OpCapture (frameRate : Z) (i : TickInput).

Definition step (w : World) (o : Op) : World :=
  match o with
  | OpStart => match caller w with Idle => Start w | _ => w end
  | OpStop => match caller w with Idle => Stop w | _ => w end
  | OpEnter => thread_entry w
  | OpCapture frameRate i =>
      let w' := capture_step frameRate i w in
      match thread_ (self w), thread_ (self w') with
      | Looping, Exited => resume w'
      | _, _ => w'
      end
  end.

Definition run (ops : list Op) (w : World) : World := fold_left step ops w.

(** A run of ticks, each with its timeout. *)
Definition ticks (ts : list (Z * TickInput)) (w : World) : World :=
  fold_left (fun w t => Duplicate (fst t) (snd t) w) ts w.

(** A tick publishes when the acquisition, the cast and the shared texture
    all succeed. *)
Definition publishes (i : TickInput) : bool :=
  negb (FAILED (acquire_hr i)) && negb (FAILED (as_texture_hr i))
  && match sharedTexture i with Some _ => true | None => false end.

(** The sequence ids read through [GetLastFrame] after each publishing tick
    of a run. *)
Fixpoint published_ids (ts : list (Z * TickInput)) (w : World) : list Z :=
  match ts with
  | [] => []
  | t :: ts =>
      let w' := Duplicate (fst t) (snd t) w in
      if publishes (snd t)
      then id (GetLastFrame (self w')) :: published_ids ts w'
      else published_ids ts w'
  end.

(** The ticks of a run that publish, and the sizes they pass to
    [UpdateMetadata]. *)
Definition publishing_ticks (ts : list (Z * TickInput))
    : list (Z * TickInput) :=
  filter (fun t => publishes (snd t)) ts.

Definition requested_sizes (ts : list (Z * TickInput)) : list Z :=
  map (fun t => TotalMetadataBufferSize (frameInfo (snd t)))
      (publishing_ticks ts).

(** The capacity of the metadata buffer of a session. *)
Definition capacity (w : World) : Z := Size (buffer (metaData_ (self w))).

End FrameCounter.

(** ** Reading the trace *)

(** The threads spawned and not joined, after a trace. *)
Definition count_thread (n : Z) (e : Event) : Z :=
  match e with
  | ThreadSpawn => n + 1
  | ThreadJoin => n - 1
  | _ => n
  end.

Definition unjoined (evs : list Event) : Z := fold_left count_thread evs 0.

(** The integers [n], [n + 1], ... ([len] of them). *)
Fixpoint count_from (n : Z) (len : nat) : list Z :=
  match len with
  | O => []
  | S len => n :: count_from (n + 1) len
  end.

(** At every point of a trace, at most one thread was spawned and not
    joined. *)
Definition one_thread_at_most (evs : list Event) : Prop :=
  forall p s, evs = p ++ s -> 0 <= unjoined p <= 1.

Definition is_rects_request (e : Event) : bool :=
  match e with
  | GetFrameMoveRects _ _ | GetFrameDirtyRects _ _ => true
  | _ => false
  end.

Definition is_ReleaseFrame (e : Event) : bool :=
  match e with ReleaseFrame => true | _ => false end.

Definition is_thread_event (e : Event) : bool :=
  match e with ThreadSpawn | ThreadJoin => true | _ => false end.

(** The events of [w'] that came after those of [w]. *)
Definition events_since (w w' : World) : list Event :=
  skipn (List.length (events w)) (events w').

(** ** Vocabulary of the properties *)

(** The mapping table of initialisation, as the specification gives it. *)
Definition matches_init_table (hr : HRESULT) (s : State) : Prop :=
  (hr = S_OK -> s = Ready) /\
  (hr = E_INVALIDARG -> s = InvalidArg) /\
  (hr = E_ACCESSDENIED -> s = AccessDenied) /\
  (hr = DXGI_ERROR_UNSUPPORTED -> s = Unsupported) /\
  (hr = DXGI_ERROR_NOT_CURRENTLY_AVAILABLE -> s = CurrentlyNotAvailable) /\
  (hr = DXGI_ERROR_SESSION_DISCONNECTED -> s = SessionDisconnected) /\
  (hr <> S_OK -> hr <> E_INVALIDARG -> hr <> E_ACCESSDENIED ->
   hr <> DXGI_ERROR_UNSUPPORTED -> hr <> DXGI_ERROR_NOT_CURRENTLY_AVAILABLE ->
   hr <> DXGI_ERROR_SESSION_DISCONNECTED -> s = Unknown).

(** The members that only construction, [Start] and [Stop] assign. *)
Definition control (d : Duplicator) : Monitor * bool * bool * bool * Thread :=
  (monitor_ d, device_ d, dupl_ d, shouldRun_ d, thread_ d).

(** The metadata that [UpdateMetadata] leaves. *)
Definition metadata_after
    (totalBufferSize : Z) (move dirty : RectsReply) (m : Metadata)
    : Metadata :=
  let m1 := set_buffer (ExpandIfNeeded totalBufferSize (buffer m)) m in
  if Empty (buffer m1) then m1
  else
    let m2 :=
      match rects_size move with
      | Some n => set_moveRectSize n m1
      | None => m1
      end in
    match rects_size dirty with
    | Some n => set_dirtyRectSize n m2
    | None => m2
    end.

(** A list of events with no thread event, no [ReleaseFrame] and no rectangle
    request. *)
Definition plain (l : list Event) : Prop :=
  filter is_thread_event l = []
  /\ filter is_ReleaseFrame l = []
  /\ filter is_rects_request l = [].

(** When the [Release] at the head of a tick leaves the state alone. *)
Definition release_is_quiet (hr : HRESULT) (w : World) : Prop :=
  isFrameAcquired_ (self w) = false \/ FAILED hr = false
  \/ hr = DXGI_ERROR_INVALID_CALL.

(** The invariant of a session: the trace never has two unjoined threads,
    and it has one exactly when [thread_] is joinable. *)
Definition thread_invariant (w : World) : Prop :=
  one_thread_at_most (events w)
  /\ unjoined (events w) = if joinable (thread_ (self w)) then 1 else 0.

(** ** The rest of the interface *)

(** [Duplicator::~Duplicator]. *)
Definition destroy (w : World) : World := Stop w.

(** [Duplicator::GetMonitor]. *)
Definition GetMonitor (d : Duplicator) : Monitor := monitor_ d.

(** ** Vocabulary of the further properties *)

Definition is_log (e : Event) : bool :=
  match e with DebugLog _ | DebugError _ => true | _ => false end.

(** The calls of a trace: its events without the log lines. *)
Definition calls (evs : list Event) : list Event :=
  filter (fun e => negb (is_log e)) evs.

(** The calls that releasing makes from a session. *)
Definition release_calls (w : World) : list Event :=
  if isFrameAcquired_ (self w) then [ReleaseFrame] else [].

(** The calls that [UpdateCursor] makes for a frame, from a session. *)
Definition cursor_calls (shared : Texture) (fi : FrameInfo) (w : World)
    : list Event :=
  if PointerPosition_Visible fi
     || (GetId (monitor_ (self w)) =? cursorMonitorId w)
  then [CursorUpdateBuffer; CursorUpdateTexture shared]
  else [].

(** The rectangle requests made for metadata that ends as [m]. *)
Definition metadata_calls (m : Metadata) : list Event :=
  if Empty (buffer m) then []
  else [GetFrameMoveRects (Size (buffer m)) 0;
        GetFrameDirtyRects (UINT_wrap (Size (buffer m) - moveRectSize m))
                           (moveRectSize m)].

(** The frames a session holds: one or none. *)
Definition held (w : World) : Z :=
  if isFrameAcquired_ (self w) then 1 else 0.

(** The ticks of a run whose acquisition succeeds. *)
Definition acquiring_ticks (ts : list (Z * TickInput))
    : list (Z * TickInput) :=
  filter (fun t => negb (FAILED (acquire_hr (snd t)))) ts.

(** The [ReleaseFrame] calls of a trace. *)
Definition releases (evs : list Event) : Z :=
  Z.of_nat (List.length (filter is_ReleaseFrame evs)).

(** The published frame agrees with the session: the counter is one step
    past the frame's id, and the frame carries the session's metadata. *)
Definition published_consistent (bits : Z) (d : Duplicator) : Prop :=
  lastFrameId_ d = next_frame_id bits (id (lastFrame_ d))
  /\ metaData (lastFrame_ d) = metaData_ d.

(** [IsRunning] tells that a capture thread is in its loop, with the run flag
    set. *)
Definition running_means_looping (w : World) : Prop :=
  (state_ (self w) = Running <-> thread_ (self w) = Looping)
  /\ (thread_ (self w) = Looping -> shouldRun_ (self w) = true).

(** ** Sample sessions *)

(** A session as its constructor finds it, for the examples: on monitor 0,
    whose adapter has LUID (7, 0); nothing acquired, published or running. *)
Definition sample_monitor : Monitor := mkMonitor 0 (mkLUID 7 0).

Definition sample_metadata : Metadata := mkMetadata (mkBuffer 0) 0 0.

Definition sample_duplicator : Duplicator :=
  mkDuplicator sample_monitor Ready false false false 0
    (mkFrame 0 None (mkFrameInfo false 0) sample_metadata)
    sample_metadata false NoThread.

Definition sample_world : World := mkWorld sample_duplicator (-1) [] Idle.

(** Construction on the renderer's adapter, with every call succeeding. *)
Definition sample_init : InitInput :=
  mkInitInput S_OK S_OK S_OK true (mkLUID 7 0).

Definition constructed_world : World := construct sample_init sample_world.

(** A tick in which everything succeeds, with 4096 bytes of metadata. *)
Definition good_tick : TickInput :=
  mkTickInput S_OK S_OK (mkFrameInfo true 4096) 11 S_OK (Some 12)
    (mkRectsReply S_OK (Some 48)) (mkRectsReply S_OK (Some 32)).

(** The same session once started and its capture thread entered, and after
    a first tick of its capture loop: running, and holding the frame of that
    tick. *)
Definition running_world : World := thread_entry (Start constructed_world).

Definition holding_world : World := Duplicate 32 16 good_tick running_world.

(** A tick whose [ReleaseFrame] fails with access-lost and whose
    acquisition then times out. *)
Definition timeout_after_lost_release : TickInput :=
  mkTickInput DXGI_ERROR_ACCESS_LOST DXGI_ERROR_WAIT_TIMEOUT
    (mkFrameInfo false 0) 0 S_OK None
    (mkRectsReply S_OK None) (mkRectsReply S_OK None).

(** A tick whose [ReleaseFrame] fails with access-lost, whose acquisition
    succeeds and whose resource is not a texture (E_NOINTERFACE). *)
Definition no_texture_after_lost_release : TickInput :=
  mkTickInput DXGI_ERROR_ACCESS_LOST S_OK (mkFrameInfo false 0) 11
    (of_hex 0x80004002) None
    (mkRectsReply S_OK None) (mkRectsReply S_OK None).

(** A tick that acquires a frame for which no shared texture is available. *)
Definition null_shared_tick : TickInput :=
  mkTickInput S_OK S_OK (mkFrameInfo false 4096) 11 S_OK None
    (mkRectsReply S_OK None) (mkRectsReply S_OK None).

(** A tick whose acquisition times out. *)
Definition timeout_tick : TickInput :=
  mkTickInput S_OK DXGI_ERROR_WAIT_TIMEOUT (mkFrameInfo false 0) 0 S_OK None
    (mkRectsReply S_OK None) (mkRectsReply S_OK None).

(** A running session whose 32-bit frame counter has reached its last
    value. *)
Definition wrapping_world : World :=
  modify (set_lastFrameId_ (2 ^ 32 - 1)) running_world.

(** A tick like [good_tick] that needs 1024 bytes of metadata only. *)
Definition small_tick : TickInput :=
  mkTickInput S_OK S_OK (mkFrameInfo true 1024) 11 S_OK (Some 12)
    (mkRectsReply S_OK (Some 48)) (mkRectsReply S_OK (Some 32)).

(** The running session after a loop pass in which the held frame is lost:
    the state is AccessLost and the capture thread has left its loop. *)
Definition lost_world : World :=
  capture_step 32 60 timeout_after_lost_release holding_world.

(** A tick whose acquisition fails with access-lost. *)
Definition access_lost_tick : TickInput :=
  mkTickInput S_OK DXGI_ERROR_ACCESS_LOST (mkFrameInfo false 0) 0 S_OK None
    (mkRectsReply S_OK None) (mkRectsReply S_OK None).

(** The answer to a rectangle request that needs 48 bytes and did not get
    them. *)
Definition more_data_reply : RectsReply :=
  mkRectsReply DXGI_ERROR_MORE_DATA (Some 48).

(** ** Properties *)

(** Splits on every comparison of a result code that the goal tests. *)
Ltac split_codes :=
  repeat match goal with
         | |- context [Z.eqb ?a ?b] => destruct (Z.eqb_spec a b)
         end.

Lemma State_eqb_eq : forall a b, State_eqb a b = true <-> a = b.
Proof.
  intros a b; split.
  - destruct a, b; simpl; intro H; (reflexivity || discriminate H).
  - intros ->; destruct b; reflexivity.
Qed.

Lemma State_eqb_refl : forall a, State_eqb a a = true.
Proof. intro a; apply State_eqb_eq; reflexivity. Qed.

Lemma State_eqb_neq : forall a b, State_eqb a b = false <-> a <> b.
Proof.
  intros a b; split.
  - intros H E; subst b; rewrite State_eqb_refl in H; discriminate H.
  - intro H; destruct (State_eqb a b) eqn:E; [|reflexivity].
    apply State_eqb_eq in E; contradiction.
Qed.

Lemma InitializeDuplication_state :
  forall as_hr hr handle w,
    FAILED as_hr = false ->
    matches_init_table hr
      (state_ (self (InitializeDuplication as_hr hr handle w))).
Proof.
  intros as_hr hr handle w Has.
  unfold InitializeDuplication; rewrite Has.
  unfold matches_init_table.
  split_codes; simpl; repeat split; intros; subst;
    first [reflexivity | discriminate | contradiction].
Qed.

Lemma InitializeDuplication_monitor :
  forall as_hr hr handle w,
    monitor_ (self (InitializeDuplication as_hr hr handle w))
    = monitor_ (self w).
Proof.
  intros; unfold InitializeDuplication.
  destruct (FAILED as_hr); [reflexivity|].
  split_codes; reflexivity.
Qed.

Lemma InitializeDevice_monitor :
  forall hr w, monitor_ (self (InitializeDevice hr w)) = monitor_ (self w).
Proof.
  intros; unfold InitializeDevice; destruct (FAILED hr); reflexivity.
Qed.

Lemma CheckUnityAdapter_match :
  forall luid w,
    isUnityAdapter (AdapterLuid (monitor_ (self w))) luid = true ->
    CheckUnityAdapter luid w = w.
Proof.
  intros luid w H; unfold CheckUnityAdapter; rewrite H; reflexivity.
Qed.

Lemma CheckUnityAdapter_mismatch :
  forall luid w,
    isUnityAdapter (AdapterLuid (monitor_ (self w))) luid = false ->
    state_ (self (CheckUnityAdapter luid w)) = Unsupported.
Proof.
  intros luid w H; unfold CheckUnityAdapter; rewrite H; reflexivity.
Qed.

Lemma isUnityAdapter_eq : forall a b, isUnityAdapter a b = true <-> a = b.
Proof.
  intros [al ah] [bl bh]; unfold isUnityAdapter; simpl.
  rewrite andb_true_iff, !Z.eqb_eq; split.
  - intros [-> ->]; reflexivity.
  - intro H; injection H; auto.
Qed.

(** C1.  Whatever code [DuplicateOutput] returns during initialisation, the
    state that [InitializeDuplication] leaves is the one of the mapping
    table: S_OK gives Ready, E_INVALIDARG InvalidArg, E_ACCESSDENIED
    AccessDenied, DXGI_ERROR_UNSUPPORTED Unsupported,
    DXGI_ERROR_NOT_CURRENTLY_AVAILABLE CurrentlyNotAvailable,
    DXGI_ERROR_SESSION_DISCONNECTED SessionDisconnected and every other code
    Unknown; on the renderer's adapter this is also the state the constructor
    leaves. *)
Theorem init_state_follows_table :
  forall (i : InitInput) (w : World),
    FAILED (output_as_hr i) = false ->
    matches_init_table (duplicateOutput_hr i)
      (state_ (self (InitializeDuplication (output_as_hr i)
                       (duplicateOutput_hr i) (duplicateOutput_handle i) w)))
    /\ (isUnityAdapter (AdapterLuid (monitor_ (self w))) (unityAdapterLuid i)
        = true ->
        matches_init_table (duplicateOutput_hr i)
          (state_ (self (construct i w)))).
Proof.
  intros i w Has; split.
  - apply InitializeDuplication_state; exact Has.
  - intro Hluid; unfold construct.
    rewrite CheckUnityAdapter_match.
    + apply InitializeDuplication_state; exact Has.
    + rewrite InitializeDuplication_monitor, InitializeDevice_monitor.
      exact Hluid.
Qed.

Lemma init_state_follows_table_witness :
  state_ (self (construct
                  (mkInitInput S_OK S_OK E_ACCESSDENIED false (mkLUID 7 0))
                  sample_world)) = AccessDenied.
Proof.
  pose proof (init_state_follows_table
                (mkInitInput S_OK S_OK E_ACCESSDENIED false (mkLUID 7 0))
                sample_world eq_refl) as [_ H].
  destruct (H eq_refl) as (_ & _ & Hdenied & _).
  exact (Hdenied eq_refl).
Defined.

(** C3.  When the LUID of the monitor's adapter differs from the LUID of the
    renderer's adapter, the constructor leaves the state Unsupported, whatever
    device creation and [DuplicateOutput] returned; in particular when
    [DuplicateOutput] returned S_OK and [InitializeDuplication] had set the
    state to Ready. *)
Theorem construct_adapter_mismatch :
  forall (i : InitInput) (w : World),
    AdapterLuid (monitor_ (self w)) <> unityAdapterLuid i ->
    state_ (self (construct i w)) = Unsupported
    /\ (FAILED (output_as_hr i) = false -> duplicateOutput_hr i = S_OK ->
        state_ (self (InitializeDuplication (output_as_hr i)
                        (duplicateOutput_hr i) (duplicateOutput_handle i)
                        (InitializeDevice (create_hr i) w))) = Ready).
Proof.
  intros i w Hluid; split.
  - unfold construct; apply CheckUnityAdapter_mismatch.
    rewrite InitializeDuplication_monitor, InitializeDevice_monitor.
    destruct (isUnityAdapter _ _) eqn:E; [|reflexivity].
    apply isUnityAdapter_eq in E; contradiction.
  - intros Has Hok.
    apply (InitializeDuplication_state _ _ (duplicateOutput_handle i)
             (InitializeDevice (create_hr i) w) Has).
    exact Hok.
Qed.

Lemma construct_adapter_mismatch_witness :
  state_ (self (construct (mkInitInput S_OK S_OK S_OK true (mkLUID 8 0))
                          sample_world)) = Unsupported
  /\ state_ (self (InitializeDuplication S_OK S_OK true
                     (InitializeDevice S_OK sample_world))) = Ready.
Proof.
  assert (Hluid : AdapterLuid (monitor_ (self sample_world)) <>
                  unityAdapterLuid
                    (mkInitInput S_OK S_OK S_OK true (mkLUID 8 0)))
    by (simpl; discriminate).
  destruct (construct_adapter_mismatch
              (mkInitInput S_OK S_OK S_OK true (mkLUID 8 0))
              sample_world Hluid) as [H1 H2].
  split; [exact H1 | exact (H2 eq_refl eq_refl)].
Defined.

(** *** Traces *)

Lemma skipn_app_exact :
  forall (A : Type) (l r : list A), skipn (List.length l) (l ++ r) = r.
Proof. intros A l r; induction l as [|a l IH]; simpl; auto. Qed.

Lemma events_since_app :
  forall w w' l, events w' = events w ++ l -> events_since w w' = l.
Proof.
  intros w w' l H; unfold events_since; rewrite H; apply skipn_app_exact.
Qed.

(** *** Release *)

Lemma Release_not_held :
  forall hr w, isFrameAcquired_ (self w) = false -> Release hr w = w.
Proof. intros hr w H; unfold Release; rewrite H; reflexivity. Qed.

Lemma Release_clears_flag :
  forall hr w, isFrameAcquired_ (self (Release hr w)) = false.
Proof.
  intros hr w; unfold Release.
  destruct (isFrameAcquired_ (self w)) eqn:E; simpl; [reflexivity | exact E].
Qed.

(** The trace of a [Release] that holds a frame: the call, then at most one
    log line. *)
Lemma Release_held_events :
  forall hr w,
    isFrameAcquired_ (self w) = true ->
    exists logs,
      events (Release hr w) = events w ++ ReleaseFrame :: logs
      /\ filter is_ReleaseFrame logs = []
      /\ filter is_thread_event logs = [].
Proof.
  intros hr w H; unfold Release; rewrite H; simpl.
  destruct (FAILED hr); split_codes; simpl;
    rewrite <- ?app_assoc; simpl; eexists; (split; [reflexivity|]);
    split; reflexivity.
Qed.

Lemma Release_events :
  forall hr w,
    exists l,
      events (Release hr w) = events w ++ l
      /\ filter is_thread_event l = []
      /\ filter is_ReleaseFrame l
         = if isFrameAcquired_ (self w) then [ReleaseFrame] else [].
Proof.
  intros hr w; destruct (isFrameAcquired_ (self w)) eqn:E.
  - destruct (Release_held_events hr w E) as (logs & H1 & H2 & H3).
    exists (ReleaseFrame :: logs); simpl; rewrite H2, H3; auto.
  - rewrite Release_not_held by exact E.
    exists []; rewrite app_nil_r; auto.
Qed.

Lemma Release_state :
  forall hr w,
    state_ (self (Release hr w))
    = if isFrameAcquired_ (self w) && FAILED hr then
        if hr =? DXGI_ERROR_ACCESS_LOST then AccessLost
        else if hr =? DXGI_ERROR_INVALID_CALL then state_ (self w)
        else Unknown
      else state_ (self w).
Proof.
  intros hr w; unfold Release.
  destruct (isFrameAcquired_ (self w)); simpl; [|reflexivity].
  destruct (FAILED hr); simpl; [|reflexivity].
  split_codes; reflexivity.
Qed.

Lemma Release_quiet_state :
  forall hr w,
    release_is_quiet hr w -> state_ (self (Release hr w)) = state_ (self w).
Proof.
  intros hr w [H | [H | H]]; rewrite Release_state.
  - rewrite H; reflexivity.
  - rewrite H, andb_false_r; reflexivity.
  - subst hr; destruct (_ && _); reflexivity.
Qed.

(** C4 (as amended).  When [ReleaseFrame] fails, DXGI_ERROR_ACCESS_LOST sets
    the state to AccessLost, DXGI_ERROR_INVALID_CALL is logged and leaves the
    state as it was, and every other failure code sets the state to
    Unknown. *)
Theorem Release_failure_states :
  forall (hr : HRESULT) (w : World),
    isFrameAcquired_ (self w) = true ->
    FAILED hr = true ->
    let w' := Release hr w in
    (hr = DXGI_ERROR_ACCESS_LOST -> state_ (self w') = AccessLost)
    /\ (hr = DXGI_ERROR_INVALID_CALL ->
        state_ (self w') = state_ (self w)
        /\ events_since w w'
           = [ReleaseFrame;
              DebugError "Duplicator::Duplicate() => DXGI_ERROR_INVALID_CALL."])
    /\ (hr <> DXGI_ERROR_ACCESS_LOST -> hr <> DXGI_ERROR_INVALID_CALL ->
        state_ (self w') = Unknown).
Proof.
  intros hr w Hheld Hfail; cbv zeta.
  rewrite Release_state, Hheld, Hfail; simpl.
  split; [|split].
  - intros ->; reflexivity.
  - intros ->; split; [reflexivity|].
    apply events_since_app.
    unfold Release; rewrite Hheld; simpl.
    rewrite <- app_assoc; reflexivity.
  - intros H1 H2; split_codes; try contradiction; reflexivity.
Qed.

Lemma Release_failure_states_witness :
  state_ (self (Release DXGI_ERROR_ACCESS_LOST holding_world)) = AccessLost
  /\ state_ (self (Release DXGI_ERROR_INVALID_CALL holding_world)) = Running
  /\ state_ (self (Release E_INVALIDARG holding_world)) = Unknown.
Proof.
  split; [|split].
  - exact (proj1 (Release_failure_states DXGI_ERROR_ACCESS_LOST holding_world
                    eq_refl eq_refl) eq_refl).
  - exact (proj1 (proj1 (proj2 (Release_failure_states DXGI_ERROR_INVALID_CALL
                                  holding_world eq_refl eq_refl)) eq_refl)).
  - apply (proj2 (proj2 (Release_failure_states E_INVALIDARG holding_world
                           eq_refl eq_refl))); discriminate.
Defined.

(** C4 (as stated) fails: a held frame whose release fails with
    DXGI_ERROR_INVALID_CALL, a failure code other than access-lost, leaves a
    running session Running, not Unknown. *)
Lemma Release_invalid_call_not_Unknown :
  isFrameAcquired_ (self holding_world) = true
  /\ FAILED DXGI_ERROR_INVALID_CALL = true
  /\ DXGI_ERROR_INVALID_CALL <> DXGI_ERROR_ACCESS_LOST
  /\ state_ (self (Release DXGI_ERROR_INVALID_CALL holding_world)) = Running
  /\ state_ (self (Release DXGI_ERROR_INVALID_CALL holding_world)) <> Unknown.
Proof.
  repeat split; try reflexivity; discriminate.
Qed.

(** C9.  [Release] does nothing when no frame is held; when one is held it
    calls [ReleaseFrame] once and leaves the held-frame flag cleared,
    whatever the call returned. *)
Theorem Release_held_flag :
  forall (hr : HRESULT) (w : World),
    (isFrameAcquired_ (self w) = false -> Release hr w = w)
    /\ (isFrameAcquired_ (self w) = true ->
        isFrameAcquired_ (self (Release hr w)) = false
        /\ filter is_ReleaseFrame (events_since w (Release hr w))
           = [ReleaseFrame]).
Proof.
  intros hr w; split.
  - apply Release_not_held.
  - intro H; split; [apply Release_clears_flag|].
    destruct (Release_held_events hr w H) as (logs & Hev & Hrel & _).
    rewrite (events_since_app _ _ _ Hev); simpl; rewrite Hrel; reflexivity.
Qed.

Lemma Release_held_flag_witness :
  Release E_ACCESSDENIED constructed_world = constructed_world
  /\ isFrameAcquired_ (self (Release E_ACCESSDENIED holding_world)) = false
  /\ filter is_ReleaseFrame
       (events_since holding_world (Release E_ACCESSDENIED holding_world))
     = [ReleaseFrame].
Proof.
  split.
  - exact (proj1 (Release_held_flag E_ACCESSDENIED constructed_world) eq_refl).
  - exact (proj2 (Release_held_flag E_ACCESSDENIED holding_world) eq_refl).
Defined.

(** *** Metadata extraction *)

Lemma rects_failure_log_is_log :
  forall fn hr,
    is_rects_request (rects_failure_log fn hr) = false
    /\ is_thread_event (rects_failure_log fn hr) = false
    /\ is_ReleaseFrame (rects_failure_log fn hr) = false.
Proof.
  intros fn hr; unfold rects_failure_log; split_codes; simpl; auto.
Qed.

Lemma set_metaData_same : forall d, set_metaData_ (metaData_ d) d = d.
Proof. intros []; reflexivity. Qed.

(** [UpdateMoveRects] asks for the move rectangles with the whole buffer and
    stores the size the driver reports; it touches nothing else. *)
Lemma UpdateMoveRects_effect :
  forall r w,
    let m := metaData_ (self w) in
    let m' :=
      match rects_size r with
      | Some n => set_moveRectSize n m
      | None => m
      end in
    self (UpdateMoveRects r w) = set_metaData_ m' (self w)
    /\ cursorMonitorId (UpdateMoveRects r w) = cursorMonitorId w
    /\ exists logs,
         events (UpdateMoveRects r w)
         = events w ++ GetFrameMoveRects (Size (buffer m)) 0 :: logs
         /\ filter is_rects_request logs = []
         /\ filter is_thread_event logs = []
         /\ filter is_ReleaseFrame logs = [].
Proof.
  intros r w; cbv zeta; unfold UpdateMoveRects.
  pose proof (rects_failure_log_is_log "UpdateMoveRects" (rects_hr r))
    as (L1 & L2 & L3).
  destruct (rects_size r), (FAILED (rects_hr r)); simpl;
    rewrite ?set_metaData_same, <- ?app_assoc; simpl;
    (split; [reflexivity|]); (split; [reflexivity|]);
    eexists; (split; [reflexivity|]); simpl; rewrite ?L1, ?L2, ?L3; auto.
Qed.

(** [UpdateDirtyRects] asks for the dirty rectangles behind the move
    rectangles, with what is left of the buffer, and stores the size the
    driver reports; it touches nothing else. *)
Lemma UpdateDirtyRects_effect :
  forall r w,
    let m := metaData_ (self w) in
    let m' :=
      match rects_size r with
      | Some n => set_dirtyRectSize n m
      | None => m
      end in
    self (UpdateDirtyRects r w) = set_metaData_ m' (self w)
    /\ cursorMonitorId (UpdateDirtyRects r w) = cursorMonitorId w
    /\ exists logs,
         events (UpdateDirtyRects r w)
         = events w
           ++ GetFrameDirtyRects
                (UINT_wrap (Size (buffer m) - moveRectSize m))
                (moveRectSize m) :: logs
         /\ filter is_rects_request logs = []
         /\ filter is_thread_event logs = []
         /\ filter is_ReleaseFrame logs = [].
Proof.
  intros r w; cbv zeta; unfold UpdateDirtyRects.
  pose proof (rects_failure_log_is_log "UpdateDirtyRects" (rects_hr r))
    as (L1 & L2 & L3).
  destruct (rects_size r), (FAILED (rects_hr r)); simpl;
    rewrite ?set_metaData_same, <- ?app_assoc; simpl;
    (split; [reflexivity|]); (split; [reflexivity|]);
    eexists; (split; [reflexivity|]); simpl; rewrite ?L1, ?L2, ?L3; auto.
Qed.

Lemma ExpandIfNeeded_size :
  forall size b, Size (ExpandIfNeeded size b) = Z.max (Size b) size.
Proof.
  intros size b; unfold ExpandIfNeeded, Size.
  destruct (Z.ltb_spec (size_ b) size); simpl; lia.
Qed.

Lemma set_metaData_twice :
  forall m m' d, set_metaData_ m' (set_metaData_ m d) = set_metaData_ m' d.
Proof. reflexivity. Qed.

Lemma metadata_after_buffer :
  forall total move dirty m,
    buffer (metadata_after total move dirty m)
    = ExpandIfNeeded total (buffer m).
Proof.
  intros; unfold metadata_after; simpl.
  destruct (Empty _); [reflexivity|].
  destruct (rects_size move), (rects_size dirty); reflexivity.
Qed.

Lemma UpdateMetadata_effect :
  forall total move dirty w,
    let w' := UpdateMetadata total move dirty w in
    let m' := metadata_after total move dirty (metaData_ (self w)) in
    self w' = set_metaData_ m' (self w)
    /\ cursorMonitorId w' = cursorMonitorId w
    /\ exists l,
         events w' = events w ++ l
         /\ filter is_thread_event l = []
         /\ filter is_ReleaseFrame l = []
         /\ filter is_rects_request l
            = if Empty (buffer m') then []
              else [GetFrameMoveRects (Size (buffer m')) 0;
                    GetFrameDirtyRects
                      (UINT_wrap (Size (buffer m') - moveRectSize m'))
                      (moveRectSize m')].
Proof.
  intros total move dirty w; cbv zeta.
  rewrite metadata_after_buffer.
  unfold UpdateMetadata, metadata_after.
  set (w1 := modify_metaData _ w).
  assert (Hm1 : metaData_ (self w1)
                = set_buffer (ExpandIfNeeded total (buffer (metaData_ (self w))))
                             (metaData_ (self w))) by reflexivity.
  rewrite Hm1; simpl buffer.
  destruct (Empty (ExpandIfNeeded total (buffer (metaData_ (self w))))) eqn:E;
    simpl negb; cbv iota.
  - split; [reflexivity|]; split; [reflexivity|].
    exists []; rewrite app_nil_r; auto.
  - destruct (UpdateMoveRects_effect move w1) as (S1 & C1 & l1 & E1 & R1 & T1 & F1).
    destruct (UpdateDirtyRects_effect dirty (UpdateMoveRects move w1))
      as (S2 & C2 & l2 & E2 & R2 & T2 & F2).
    cbv zeta in *.
    rewrite S2, S1, C2, C1, E2, E1, set_metaData_twice, Hm1.
    split; [|split; [reflexivity|]].
    + destruct (rects_size move), (rects_size dirty); reflexivity.
    + eexists; split.
      * change (events w1) with (events w).
        rewrite <- app_assoc; simpl; reflexivity.
      * simpl; rewrite !filter_app; simpl.
        rewrite R1, R2, T1, T2, F1, F2, S1; simpl.
        repeat split.
        destruct (rects_size move), (rects_size dirty); reflexivity.
Qed.

(** *** The tick *)

Lemma plain_nil : plain [].
Proof. repeat split. Qed.

Lemma UpdateCursor_effect :
  forall t fi w,
    self (UpdateCursor t fi w) = self w
    /\ exists l, events (UpdateCursor t fi w) = events w ++ l /\ plain l.
Proof.
  intros t fi w; unfold UpdateCursor.
  destruct (PointerPosition_Visible fi); simpl;
    match goal with |- context [Z.eqb ?a ?b] => destruct (Z.eqb a b) end;
    simpl; (split; [reflexivity|]).
  all: try (exists []; rewrite app_nil_r; split; [reflexivity | apply plain_nil]).
  all: rewrite <- app_assoc; simpl; eexists; split;
    [reflexivity | repeat split].
Qed.

Lemma acquire_failure_effect :
  forall hr w,
    let s :=
      if hr =? DXGI_ERROR_ACCESS_LOST then AccessLost
      else if hr =? DXGI_ERROR_WAIT_TIMEOUT then state_ (self w)
      else if hr =? DXGI_ERROR_INVALID_CALL then state_ (self w)
      else if hr =? E_INVALIDARG then state_ (self w)
      else Unknown in
    self (acquire_failure hr w) = set_state_ s (self w)
    /\ cursorMonitorId (acquire_failure hr w) = cursorMonitorId w
    /\ exists l, events (acquire_failure hr w) = events w ++ l /\ plain l.
Proof.
  intros hr w; cbv zeta; unfold acquire_failure.
  assert (Hsame : set_state_ (state_ (self w)) (self w) = self w)
    by (destruct (self w); reflexivity).
  split_codes; simpl; rewrite ?Hsame; (split; [reflexivity|]);
    (split; [reflexivity|]).
  all: try (exists []; rewrite app_nil_r; split; [reflexivity | apply plain_nil]).
  all: eexists; split; [reflexivity | repeat split].
Qed.

Lemma Release_self :
  forall hr w,
    self (Release hr w)
    = set_isFrameAcquired_ false
        (set_state_ (state_ (self (Release hr w))) (self w))
    /\ cursorMonitorId (Release hr w) = cursorMonitorId w.
Proof.
  intros hr w; unfold Release.
  destruct (isFrameAcquired_ (self w)) eqn:E; simpl.
  - destruct (FAILED hr); split_codes; simpl; split; try reflexivity;
      destruct (self w); reflexivity.
  - split; [|reflexivity].
    destruct (self w); simpl in *; subst; reflexivity.
Qed.

Lemma Release_control :
  forall hr w, control (self (Release hr w)) = control (self w).
Proof.
  intros hr w; rewrite (proj1 (Release_self hr w)); reflexivity.
Qed.

Lemma Release_frames :
  forall hr w,
    lastFrame_ (self (Release hr w)) = lastFrame_ (self w)
    /\ lastFrameId_ (self (Release hr w)) = lastFrameId_ (self w)
    /\ metaData_ (self (Release hr w)) = metaData_ (self w).
Proof.
  intros hr w; rewrite (proj1 (Release_self hr w)); repeat split.
Qed.

(** The three ways through [Duplicate] once past its guard. *)
Lemma Duplicate_guarded :
  forall bits timeout i w,
    dupl_ (self w) && device_ (self w) = false ->
    Duplicate bits timeout i w = w.
Proof.
  intros bits timeout i w H; unfold Duplicate.
  destruct (dupl_ (self w)), (device_ (self w)); try discriminate H;
    reflexivity.
Qed.

Lemma Duplicate_failed :
  forall bits timeout i w,
    dupl_ (self w) = true -> device_ (self w) = true ->
    FAILED (acquire_hr i) = true ->
    Duplicate bits timeout i w
    = acquire_failure (acquire_hr i)
        (emit (AcquireNextFrame timeout) (Release (release_hr i) w)).
Proof.
  intros bits timeout i w Hd Hv Hf; unfold Duplicate.
  rewrite Hd, Hv, Hf; reflexivity.
Qed.

Lemma Duplicate_unpublished :
  forall bits timeout i w,
    dupl_ (self w) = true -> device_ (self w) = true ->
    FAILED (acquire_hr i) = false ->
    FAILED (as_texture_hr i) = true \/ sharedTexture i = None ->
    exists msg,
      Duplicate bits timeout i w
      = emit (DebugError msg)
          (modify (set_isFrameAcquired_ true)
             (emit (AcquireNextFrame timeout) (Release (release_hr i) w))).
Proof.
  intros bits timeout i w Hd Hv Hf Hu; unfold Duplicate.
  rewrite Hd, Hv, Hf; simpl negb; simpl orb; cbv iota.
  destruct (FAILED (as_texture_hr i)) eqn:E.
  - eexists; reflexivity.
  - destruct Hu as [Hu | Hu]; [discriminate Hu|].
    rewrite Hu; eexists; reflexivity.
Qed.

Lemma publishes_inv :
  forall i,
    publishes i = true ->
    FAILED (acquire_hr i) = false /\ FAILED (as_texture_hr i) = false
    /\ exists shared, sharedTexture i = Some shared.
Proof.
  intros i; unfold publishes.
  destruct (FAILED (acquire_hr i)), (FAILED (as_texture_hr i)),
    (sharedTexture i); simpl; intro H; try discriminate H.
  repeat split; eexists; reflexivity.
Qed.

Lemma publishes_false :
  forall i,
    publishes i = false ->
    FAILED (acquire_hr i) = true
    \/ (FAILED (acquire_hr i) = false
        /\ (FAILED (as_texture_hr i) = true \/ sharedTexture i = None)).
Proof.
  intros i; unfold publishes.
  destruct (FAILED (acquire_hr i)), (FAILED (as_texture_hr i)),
    (sharedTexture i); simpl; intro H; try discriminate H; auto.
Qed.

Lemma Duplicate_published :
  forall bits timeout i w shared,
    dupl_ (self w) = true -> device_ (self w) = true ->
    FAILED (acquire_hr i) = false -> FAILED (as_texture_hr i) = false ->
    sharedTexture i = Some shared ->
    Duplicate bits timeout i w
    = modify (publish bits shared (frameInfo i))
        (UpdateMetadata (TotalMetadataBufferSize (frameInfo i))
           (moveRects i) (dirtyRects i)
           (UpdateCursor shared (frameInfo i)
              (emit (CopyResource shared (resource i))
                 (modify (set_isFrameAcquired_ true)
                    (emit (AcquireNextFrame timeout)
                       (Release (release_hr i) w)))))).
Proof.
  intros bits timeout i w shared Hd Hv Hf Ht Hs; unfold Duplicate.
  rewrite Hd, Hv, Hf, Ht, Hs; reflexivity.
Qed.

Lemma Duplicate_published_self :
  forall bits timeout i w shared,
    dupl_ (self w) = true -> device_ (self w) = true ->
    FAILED (acquire_hr i) = false -> FAILED (as_texture_hr i) = false ->
    sharedTexture i = Some shared ->
    self (Duplicate bits timeout i w)
    = publish bits shared (frameInfo i)
        (set_metaData_
           (metadata_after (TotalMetadataBufferSize (frameInfo i))
              (moveRects i) (dirtyRects i) (metaData_ (self w)))
           (set_isFrameAcquired_ true (self (Release (release_hr i) w)))).
Proof.
  intros bits timeout i w shared Hd Hv Hf Ht Hs.
  rewrite (Duplicate_published bits timeout i w shared Hd Hv Hf Ht Hs).
  simpl self.
  match goal with
  | |- context [UpdateMetadata ?t ?m ?d ?x] =>
      destruct (UpdateMetadata_effect t m d x) as (S & _)
  end.
  cbv zeta in S; rewrite S.
  match goal with
  | |- context [UpdateCursor ?t ?f ?x] =>
      destruct (UpdateCursor_effect t f x) as (C & _)
  end.
  rewrite C; simpl.
  destruct (Release_frames (release_hr i) w) as (_ & _ & M).
  rewrite M; reflexivity.
Qed.

(** Past its guard, [Duplicate] releases, then acquires, and never releases
    again; it never spawns or joins a thread. *)
Lemma Duplicate_events :
  forall bits timeout i w,
    dupl_ (self w) = true -> device_ (self w) = true ->
    exists l,
      events (Duplicate bits timeout i w)
      = events (Release (release_hr i) w) ++ AcquireNextFrame timeout :: l
      /\ filter is_thread_event l = []
      /\ filter is_ReleaseFrame l = [].
Proof.
  intros bits timeout i w Hd Hv.
  destruct (FAILED (acquire_hr i)) eqn:Hf.
  - rewrite (Duplicate_failed bits timeout i w Hd Hv Hf).
    match goal with
    | |- context [acquire_failure ?h ?x] =>
        destruct (acquire_failure_effect h x) as (_ & _ & l & E & P1 & P2 & _)
    end.
    rewrite E; simpl; rewrite <- app_assoc; simpl; eauto.
  - destruct (publishes i) eqn:Hp.
    + destruct (publishes_inv i Hp) as (_ & Ht & shared & Hs).
      rewrite (Duplicate_published bits timeout i w shared Hd Hv Hf Ht Hs).
      simpl events.
      match goal with
      | |- context [UpdateMetadata ?t ?m ?d ?x] =>
          destruct (UpdateMetadata_effect t m d x)
            as (_ & _ & l1 & E1 & T1 & F1 & _)
      end.
      rewrite E1.
      match goal with
      | |- context [UpdateCursor ?t ?f ?x] =>
          destruct (UpdateCursor_effect t f x) as (_ & l2 & E2 & T2 & F2 & _)
      end.
      rewrite E2; simpl; rewrite <- !app_assoc; simpl.
      eexists; split; [reflexivity|].
      simpl; rewrite !filter_app, T1, T2, F1, F2; auto.
    + destruct (publishes_false i Hp) as [Hf' | [_ Hu]];
        [rewrite Hf in Hf'; discriminate Hf'|].
      destruct (Duplicate_unpublished bits timeout i w Hd Hv Hf Hu)
        as (msg & E).
      rewrite E; simpl; rewrite <- app_assoc; simpl; eauto.
Qed.

Lemma Duplicate_control :
  forall bits timeout i w,
    control (self (Duplicate bits timeout i w)) = control (self w).
Proof.
  intros bits timeout i w.
  destruct (dupl_ (self w) && device_ (self w)) eqn:G;
    [|rewrite Duplicate_guarded by exact G; reflexivity].
  apply andb_true_iff in G; destruct G as [Hd Hv].
  destruct (FAILED (acquire_hr i)) eqn:Hf.
  - rewrite (Duplicate_failed bits timeout i w Hd Hv Hf).
    match goal with
    | |- context [acquire_failure ?h ?x] =>
        destruct (acquire_failure_effect h x) as (S & _)
    end.
    cbv zeta in S; rewrite S; simpl.
    apply Release_control.
  - destruct (publishes i) eqn:Hp.
    + destruct (publishes_inv i Hp) as (_ & Ht & shared & Hs).
      rewrite (Duplicate_published_self bits timeout i w shared Hd Hv Hf Ht Hs).
      simpl; apply Release_control.
    + destruct (publishes_false i Hp) as [Hf' | [_ Hu]];
        [rewrite Hf in Hf'; discriminate Hf'|].
      destruct (Duplicate_unpublished bits timeout i w Hd Hv Hf Hu)
        as (msg & E).
      rewrite E; simpl; apply Release_control.
Qed.

Lemma Duplicate_keeps_handles :
  forall bits timeout i w,
    dupl_ (self (Duplicate bits timeout i w)) = dupl_ (self w)
    /\ device_ (self (Duplicate bits timeout i w)) = device_ (self w).
Proof.
  intros bits timeout i w.
  pose proof (Duplicate_control bits timeout i w) as H.
  unfold control in H; injection H; auto.
Qed.

(** C2 (as amended).  When [AcquireNextFrame] fails, the state that the tick
    leaves is, relative to the state left by the [Release] at the head of the
    tick: AccessLost on DXGI_ERROR_ACCESS_LOST; the same state, with nothing
    logged, on DXGI_ERROR_WAIT_TIMEOUT; the same state, with an error logged,
    on DXGI_ERROR_INVALID_CALL and on E_INVALIDARG; Unknown on every other
    failure code.  When that [Release] leaves the state alone (no frame was
    held, or the release succeeded or failed with invalid-call), a tick that
    fails with wait-timeout ends in the state it started in, and a running
    capture loop goes on. *)
Theorem Duplicate_acquire_failure_states :
  forall (bits timeout : Z) (i : TickInput) (w : World),
    dupl_ (self w) = true -> device_ (self w) = true ->
    FAILED (acquire_hr i) = true ->
    let hr := acquire_hr i in
    let released := Release (release_hr i) w in
    let w' := Duplicate bits timeout i w in
    (hr = DXGI_ERROR_ACCESS_LOST -> state_ (self w') = AccessLost)
    /\ (hr = DXGI_ERROR_WAIT_TIMEOUT ->
        state_ (self w') = state_ (self released)
        /\ events_since released w' = [AcquireNextFrame timeout])
    /\ (hr = DXGI_ERROR_INVALID_CALL ->
        state_ (self w') = state_ (self released)
        /\ events_since released w'
           = [AcquireNextFrame timeout;
              DebugError "Duplicator::Duplicate() => DXGI_ERROR_INVALID_CALL."])
    /\ (hr = E_INVALIDARG ->
        state_ (self w') = state_ (self released)
        /\ events_since released w'
           = [AcquireNextFrame timeout;
              DebugError "Duplicator::Duplicate() => E_INVALIDARG."])
    /\ (hr <> DXGI_ERROR_ACCESS_LOST -> hr <> DXGI_ERROR_WAIT_TIMEOUT ->
        hr <> DXGI_ERROR_INVALID_CALL -> hr <> E_INVALIDARG ->
        state_ (self w') = Unknown)
    /\ (hr = DXGI_ERROR_WAIT_TIMEOUT -> release_is_quiet (release_hr i) w ->
        state_ (self w') = state_ (self w)
        /\ (state_ (self w) = Running -> shouldRun_ (self w) = true ->
            forall frameRate,
              loop_pass bits frameRate i w
              = (Duplicate bits (UINT_wrap (1000 / frameRate)) i w, true))).
Proof.
  intros bits timeout i w Hd Hv Hf; cbv zeta.
  assert (Hdup : forall t,
             Duplicate bits t i w
             = acquire_failure (acquire_hr i)
                 (emit (AcquireNextFrame t) (Release (release_hr i) w)))
    by (intro t; apply Duplicate_failed; assumption).
  rewrite Hdup.
  assert (Hwait : acquire_hr i = DXGI_ERROR_WAIT_TIMEOUT ->
                  forall t,
                    state_ (self (acquire_failure (acquire_hr i)
                                    (emit (AcquireNextFrame t)
                                       (Release (release_hr i) w))))
                    = state_ (self (Release (release_hr i) w)))
    by (intros -> t; reflexivity).
  split; [intros ->; reflexivity|].
  split; [intros E; split; [apply Hwait; exact E|];
          rewrite E; apply events_since_app; reflexivity|].
  split; [intros ->; split; [reflexivity|];
          apply events_since_app; simpl; rewrite <- app_assoc; reflexivity|].
  split; [intros ->; split; [reflexivity|];
          apply events_since_app; simpl; rewrite <- app_assoc; reflexivity|].
  split.
  - intros H1 H2 H3 H4; unfold acquire_failure.
    split_codes; try contradiction; reflexivity.
  - intros E Hq.
    pose proof (Release_quiet_state _ _ Hq) as Hrel.
    split; [rewrite Hwait by exact E; exact Hrel|].
    intros Hrun Hshould frameRate; unfold loop_pass.
    rewrite Hshould; simpl negb; cbv iota.
    rewrite Hdup, Hwait, Hrel, Hrun by exact E; reflexivity.
Qed.

Lemma Duplicate_acquire_failure_states_witness :
  state_ (self (Duplicate 32 16 timeout_tick holding_world)) = Running
  /\ loop_pass 32 60 timeout_tick holding_world
     = (Duplicate 32 (UINT_wrap (1000 / 60)) timeout_tick holding_world, true).
Proof.
  destruct (Duplicate_acquire_failure_states 32 16 timeout_tick holding_world
              eq_refl eq_refl eq_refl) as (_ & _ & _ & _ & _ & H).
  assert (Hq : release_is_quiet (release_hr timeout_tick) holding_world)
    by (right; left; reflexivity).
  destruct (H eq_refl Hq) as [Hs Hl].
  split; [exact Hs | exact (Hl eq_refl eq_refl 60)].
Defined.

(** C2 (as stated) fails: a running session holds a frame; in the next tick
    [ReleaseFrame] fails with access-lost and [AcquireNextFrame] fails with
    wait-timeout.  The tick failed with wait-timeout, and the state after it
    (AccessLost) is not the state before it (Running). *)
Lemma Duplicate_wait_timeout_changes_state :
  dupl_ (self holding_world) = true
  /\ device_ (self holding_world) = true
  /\ acquire_hr timeout_after_lost_release = DXGI_ERROR_WAIT_TIMEOUT
  /\ state_ (self holding_world) = Running
  /\ state_ (self (Duplicate 32 16 timeout_after_lost_release holding_world))
     = AccessLost
  /\ state_ (self (Duplicate 32 16 timeout_after_lost_release holding_world))
     <> state_ (self holding_world).
Proof.
  repeat split; discriminate.
Qed.

(** C10 (as amended).  In a tick whose acquisition succeeds but whose resource
    is not a texture, or for which no shared texture is available,
    [Duplicate] returns early: the state is the one left by the [Release] at
    the head of the tick (the state before the tick when that [Release]
    leaves the state alone), the published frame and the frame counter are
    unchanged, the acquired frame is marked as held, no [ReleaseFrame] follows
    the acquisition, and the next [Duplicate] starts by calling
    [ReleaseFrame]. *)
Theorem Duplicate_unpublished_tick :
  forall (bits timeout : Z) (i : TickInput) (w : World),
    dupl_ (self w) = true -> device_ (self w) = true ->
    FAILED (acquire_hr i) = false ->
    FAILED (as_texture_hr i) = true \/ sharedTexture i = None ->
    let released := Release (release_hr i) w in
    let w' := Duplicate bits timeout i w in
    state_ (self w') = state_ (self released)
    /\ (release_is_quiet (release_hr i) w ->
        state_ (self w') = state_ (self w))
    /\ GetLastFrame (self w') = GetLastFrame (self w)
    /\ lastFrameId_ (self w') = lastFrameId_ (self w)
    /\ isFrameAcquired_ (self w') = true
    /\ filter is_ReleaseFrame (events_since released w') = []
    /\ (forall timeout2 i2,
          exists rest,
            events_since w' (Duplicate bits timeout2 i2 w')
            = ReleaseFrame :: rest
            /\ filter is_ReleaseFrame rest = []).
Proof.
  intros bits timeout i w Hd Hv Hf Hu; cbv zeta.
  destruct (Duplicate_keeps_handles bits timeout i w) as [Kd Kv].
  destruct (Duplicate_unpublished bits timeout i w Hd Hv Hf Hu) as (msg & E).
  destruct (Release_frames (release_hr i) w) as (F1 & F2 & _).
  assert (Hheld : isFrameAcquired_ (self (Duplicate bits timeout i w)) = true)
    by (rewrite E; reflexivity).
  split; [rewrite E; reflexivity|].
  split; [intro Hq; rewrite E; simpl; apply Release_quiet_state; exact Hq|].
  split; [rewrite E; simpl; exact F1|].
  split; [rewrite E; simpl; exact F2|].
  split; [exact Hheld|].
  split.
  - rewrite (events_since_app _ _ [AcquireNextFrame timeout; DebugError msg]).
    + reflexivity.
    + rewrite E; simpl; rewrite <- app_assoc; reflexivity.
  - intros timeout2 i2.
    destruct (Duplicate_events bits timeout2 i2 (Duplicate bits timeout i w))
      as (l & El & _ & Fl); [congruence | congruence |].
    destruct (Release_held_events (release_hr i2) _ Hheld)
      as (logs & Er & Fr & _).
    exists (logs ++ AcquireNextFrame timeout2 :: l); split.
    + apply events_since_app.
      rewrite El, Er, <- app_assoc; reflexivity.
    + rewrite filter_app; simpl; rewrite Fr, Fl; reflexivity.
Qed.

Lemma Duplicate_unpublished_tick_witness :
  state_ (self (Duplicate 32 16 null_shared_tick holding_world)) = Running
  /\ id (GetLastFrame (self (Duplicate 32 16 null_shared_tick holding_world)))
     = 0
  /\ isFrameAcquired_ (self (Duplicate 32 16 null_shared_tick holding_world))
     = true.
Proof.
  destruct (Duplicate_unpublished_tick 32 16 null_shared_tick holding_world
              eq_refl eq_refl eq_refl (or_intror eq_refl))
    as (_ & Hs & Hf & _ & Hh & _).
  assert (Hq : release_is_quiet (release_hr null_shared_tick) holding_world)
    by (right; left; reflexivity).
  split; [rewrite (Hs Hq); reflexivity|].
  split; [rewrite Hf; reflexivity | exact Hh].
Defined.

(** C10 (as stated) fails: a running session holds a frame; in the next tick
    [ReleaseFrame] fails with access-lost, the acquisition succeeds and the
    resource is not a texture.  [Duplicate] returns early, but the state
    after the tick (AccessLost) is not the state before it (Running). *)
Lemma Duplicate_early_return_changes_state :
  dupl_ (self holding_world) = true
  /\ device_ (self holding_world) = true
  /\ FAILED (acquire_hr no_texture_after_lost_release) = false
  /\ FAILED (as_texture_hr no_texture_after_lost_release) = true
  /\ state_ (self holding_world) = Running
  /\ state_ (self (Duplicate 32 16 no_texture_after_lost_release
                     holding_world)) = AccessLost
  /\ state_ (self (Duplicate 32 16 no_texture_after_lost_release
                     holding_world))
     <> state_ (self holding_world).
Proof.
  repeat split; discriminate.
Qed.

(** C8 (as amended).  [UpdateMetadata] grows the buffer to at least
    [TotalMetadataBufferSize]; when the buffer is then empty it asks the
    driver for nothing; otherwise it asks for the move rectangles at the head
    of the buffer with the whole capacity, stores the byte count reported in
    [moveRectSize], then asks for the dirty rectangles at offset
    [moveRectSize] with the capacity [Size - moveRectSize] taken as a UINT
    difference, that is modulo 2^32, which is the capacity less the move
    size whenever the move size does not exceed the capacity, and stores the
    byte count reported in [dirtyRectSize].  Whatever the two requests
    return, the session state is unchanged. *)
Theorem UpdateMetadata_protocol :
  forall (total : Z) (move dirty : RectsReply) (w : World),
    let w' := UpdateMetadata total move dirty w in
    let m := metaData_ (self w) in
    let m' := metaData_ (self w') in
    let cap := Size (buffer m') in
    state_ (self w') = state_ (self w)
    /\ total <= cap
    /\ (Empty (buffer m') = true ->
        filter is_rects_request (events_since w w') = []
        /\ moveRectSize m' = moveRectSize m
        /\ dirtyRectSize m' = dirtyRectSize m)
    /\ (Empty (buffer m') = false ->
        filter is_rects_request (events_since w w')
        = [GetFrameMoveRects cap 0;
           GetFrameDirtyRects (UINT_wrap (cap - moveRectSize m'))
                              (moveRectSize m')]
        /\ moveRectSize m'
           = match rects_size move with
             | Some n => n
             | None => moveRectSize m
             end
        /\ dirtyRectSize m'
           = match rects_size dirty with
             | Some n => n
             | None => dirtyRectSize m
             end
        /\ (0 <= moveRectSize m' <= cap -> cap < 2 ^ 32 ->
            UINT_wrap (cap - moveRectSize m') = cap - moveRectSize m')).
Proof.
  intros total move dirty w; cbv zeta.
  destruct (UpdateMetadata_effect total move dirty w)
    as (S & _ & l & E & _ & _ & R).
  cbv zeta in S, R; rewrite S; simpl state_.
  change (metaData_ (set_metaData_ ?x ?d)) with x.
  rewrite (events_since_app _ _ _ E), R.
  split; [reflexivity|].
  split.
  - rewrite metadata_after_buffer, ExpandIfNeeded_size; lia.
  - split; intro Hempty; rewrite Hempty.
    + split; [reflexivity|].
      unfold metadata_after in *; simpl in *.
      destruct (Empty (ExpandIfNeeded total (buffer (metaData_ (self w)))))
        eqn:E'; [split; reflexivity|].
      exfalso.
      destruct (rects_size move), (rects_size dirty); simpl in Hempty;
        congruence.
    + split; [reflexivity|].
      assert (E' : Empty (ExpandIfNeeded total (buffer (metaData_ (self w))))
                   = false)
        by (rewrite <- metadata_after_buffer with (move := move)
                                                  (dirty := dirty);
            exact Hempty).
      unfold metadata_after; simpl buffer; rewrite E'.
      split; [destruct (rects_size move), (rects_size dirty); reflexivity|].
      split; [destruct (rects_size move), (rects_size dirty); reflexivity|].
      intros Hm Hc; unfold UINT_wrap; apply Z.mod_small.
      destruct (rects_size move), (rects_size dirty); simpl in *; lia.
Qed.

Lemma UpdateMetadata_protocol_witness :
  filter is_rects_request
    (events_since constructed_world
       (UpdateMetadata 4096 (mkRectsReply S_OK (Some 48))
          (mkRectsReply DXGI_ERROR_MORE_DATA None) constructed_world))
  = [GetFrameMoveRects 4096 0; GetFrameDirtyRects 4048 48].
Proof.
  destruct (UpdateMetadata_protocol 4096 (mkRectsReply S_OK (Some 48))
              (mkRectsReply DXGI_ERROR_MORE_DATA None) constructed_world)
    as (_ & _ & _ & H).
  destruct (H eq_refl) as (Hreq & _).
  exact Hreq.
Defined.

(** C8 (as stated) fails: on a 16-byte buffer the driver answers the
    move-rectangle request with DXGI_ERROR_MORE_DATA and a required size of
    48 bytes.  The dirty-rectangle request is then made at offset 48 with a
    capacity of 4294967264 bytes, which is not the capacity less the move
    size, 16 - 48. *)
Lemma UpdateMetadata_capacity_wraps :
  capacity (UpdateMetadata 16 more_data_reply (mkRectsReply S_OK None)
              constructed_world) = 16
  /\ moveRectSize
       (metaData_ (self (UpdateMetadata 16 more_data_reply
                           (mkRectsReply S_OK None) constructed_world))) = 48
  /\ filter is_rects_request
       (events_since constructed_world
          (UpdateMetadata 16 more_data_reply (mkRectsReply S_OK None)
             constructed_world))
     = [GetFrameMoveRects 16 0; GetFrameDirtyRects 4294967264 48]
  /\ 4294967264 <> 16 - 48.
Proof.
  repeat split; discriminate.
Qed.

(** *** Runs of ticks *)

(** What a tick does to the frame counter, the published frame and the
    metadata: a publishing tick takes the counter as the frame's id and
    steps it; any other tick leaves the three alone. *)
Lemma Duplicate_publishing :
  forall bits timeout i w,
    dupl_ (self w) = true -> device_ (self w) = true ->
    publishes i = true ->
    let w' := Duplicate bits timeout i w in
    id (GetLastFrame (self w')) = lastFrameId_ (self w)
    /\ lastFrameId_ (self w') = next_frame_id bits (lastFrameId_ (self w))
    /\ metaData_ (self w')
       = metadata_after (TotalMetadataBufferSize (frameInfo i))
           (moveRects i) (dirtyRects i) (metaData_ (self w)).
Proof.
  intros bits timeout i w Hd Hv Hp; cbv zeta.
  destruct (publishes_inv i Hp) as (Hf & Ht & shared & Hs).
  rewrite (Duplicate_published_self bits timeout i w shared Hd Hv Hf Ht Hs).
  destruct (Release_frames (release_hr i) w) as (_ & F2 & _).
  simpl; rewrite F2; auto.
Qed.

Lemma Duplicate_not_publishing :
  forall bits timeout i w,
    dupl_ (self w) && device_ (self w) && publishes i = false ->
    let w' := Duplicate bits timeout i w in
    GetLastFrame (self w') = GetLastFrame (self w)
    /\ lastFrameId_ (self w') = lastFrameId_ (self w)
    /\ metaData_ (self w') = metaData_ (self w).
Proof.
  intros bits timeout i w H; cbv zeta.
  destruct (dupl_ (self w) && device_ (self w)) eqn:G;
    [|rewrite Duplicate_guarded by exact G; auto].
  apply andb_true_iff in G; destruct G as [Hd Hv].
  simpl in H.
  destruct (Release_frames (release_hr i) w) as (F1 & F2 & F3).
  destruct (publishes_false i H) as [Hf | [Hf Hu]].
  - rewrite (Duplicate_failed bits timeout i w Hd Hv Hf).
    match goal with
    | |- context [acquire_failure ?h ?x] =>
        destruct (acquire_failure_effect h x) as (S & _)
    end.
    cbv zeta in S; rewrite S; simpl; auto.
  - destruct (Duplicate_unpublished bits timeout i w Hd Hv Hf Hu)
      as (msg & E).
    rewrite E; simpl; auto.
Qed.

Lemma count_from_above :
  forall len n m, m < n -> Forall (Z.lt m) (count_from n len).
Proof.
  induction len as [|len IH]; intros n m H; simpl; constructor.
  - exact H.
  - apply IH; lia.
Qed.

Lemma count_from_sorted :
  forall len n, StronglySorted Z.lt (count_from n len).
Proof.
  induction len as [|len IH]; intro n; simpl; constructor.
  - apply IH.
  - apply count_from_above; lia.
Qed.

Lemma published_ids_none :
  forall bits ts w, publishing_ticks ts = [] -> published_ids bits ts w = [].
Proof.
  intros bits ts; induction ts as [|t ts IH]; intros w H; simpl in *.
  - reflexivity.
  - destruct (publishes (snd t)); [discriminate H | apply IH; exact H].
Qed.

Lemma publishing_ticks_cons :
  forall t ts,
    publishing_ticks (t :: ts)
    = if publishes (snd t) then t :: publishing_ticks ts
      else publishing_ticks ts.
Proof. reflexivity. Qed.

Lemma published_ids_count :
  forall bits ts w,
    dupl_ (self w) = true -> device_ (self w) = true ->
    0 <= lastFrameId_ (self w) ->
    lastFrameId_ (self w) + Z.of_nat (List.length (publishing_ticks ts))
    <= 2 ^ bits ->
    published_ids bits ts w
    = count_from (lastFrameId_ (self w)) (List.length (publishing_ticks ts)).
Proof.
  intros bits ts; induction ts as [|t ts IH]; intros w Hd Hv H0 Hb.
  - reflexivity.
  - destruct (Duplicate_keeps_handles bits (fst t) (snd t) w) as [Kd Kv].
    rewrite publishing_ticks_cons in *.
    cbn [published_ids]; destruct (publishes (snd t)) eqn:Hp.
    + destruct (Duplicate_publishing bits (fst t) (snd t) w Hd Hv Hp)
        as (Hid & Hnext & _).
      cbv zeta in Hid, Hnext.
      cbn [List.length count_from] in *.
      rewrite Hid; f_equal.
      destruct (publishing_ticks ts) as [|t' ps] eqn:Eps.
      * apply published_ids_none; exact Eps.
      * assert (Hsmall : next_frame_id bits (lastFrameId_ (self w))
                         = lastFrameId_ (self w) + 1)
          by (unfold next_frame_id; apply Z.mod_small;
              cbn [List.length] in Hb; lia).
        rewrite <- Hsmall, <- Hnext.
        rewrite <- Eps in *.
        apply IH; try congruence; rewrite Hnext, Hsmall; lia.
    + destruct (Duplicate_not_publishing bits (fst t) (snd t) w)
        as (_ & Hsame & _);
        [rewrite Hp, andb_false_r; reflexivity|].
      cbv zeta in Hsame; rewrite <- Hsame.
      apply IH; try congruence; rewrite Hsame; assumption.
Qed.

(** C6 (as amended).  A tick that publishes gives the new frame the value of
    the frame counter and steps the counter; a tick that does not publish
    leaves the published frame alone.  So, as long as the counter does not
    wrap (its value plus the number of publishing ticks stays within 2^bits),
    the sequence ids read through [GetLastFrame] after the publishing ticks
    of a run are consecutive: strictly increasing, never repeated. *)
Theorem published_ids_increase :
  forall (bits : Z) (ts : list (Z * TickInput)) (w : World),
    dupl_ (self w) = true -> device_ (self w) = true ->
    0 <= lastFrameId_ (self w) ->
    lastFrameId_ (self w) + Z.of_nat (List.length (publishing_ticks ts))
    <= 2 ^ bits ->
    published_ids bits ts w
    = count_from (lastFrameId_ (self w)) (List.length (publishing_ticks ts))
    /\ StronglySorted Z.lt (published_ids bits ts w)
    /\ (forall timeout i,
          (publishes i = true ->
           id (GetLastFrame (self (Duplicate bits timeout i w)))
           = lastFrameId_ (self w))
          /\ (publishes i = false ->
              GetLastFrame (self (Duplicate bits timeout i w))
              = GetLastFrame (self w))).
Proof.
  intros bits ts w Hd Hv H0 Hb.
  pose proof (published_ids_count bits ts w Hd Hv H0 Hb) as E.
  split; [exact E|].
  split; [rewrite E; apply count_from_sorted|].
  intros timeout i; split; intro Hp.
  - apply (Duplicate_publishing bits timeout i w Hd Hv Hp).
  - apply (Duplicate_not_publishing bits timeout i w).
    rewrite Hp, andb_false_r; reflexivity.
Qed.

Lemma published_ids_increase_witness :
  published_ids 32
    [(16, good_tick); (16, timeout_tick); (16, null_shared_tick);
     (16, good_tick)] holding_world
  = [1; 2].
Proof.
  assert (H0 : 0 <= lastFrameId_ (self holding_world))
    by (vm_compute; discriminate).
  assert (Hb : lastFrameId_ (self holding_world)
               + Z.of_nat (List.length
                   (publishing_ticks
                      [(16, good_tick); (16, timeout_tick);
                       (16, null_shared_tick); (16, good_tick)]))
               <= 2 ^ 32) by (vm_compute; discriminate).
  exact (proj1 (published_ids_increase 32 _ holding_world
                  eq_refl eq_refl H0 Hb)).
Defined.

(** The frame counter after a run of ticks that all publish. *)
Lemma frame_counter_after_ticks :
  forall bits ts w,
    0 < 2 ^ bits ->
    dupl_ (self w) = true -> device_ (self w) = true ->
    Forall (fun t => publishes (snd t) = true) ts ->
    ts <> [] ->
    lastFrameId_ (self (ticks bits ts w))
    = (lastFrameId_ (self w) + Z.of_nat (List.length ts)) mod 2 ^ bits.
Proof.
  intros bits ts w Hpos; revert w.
  induction ts as [|t ts IH]; intros w Hd Hv Hall Hne; [contradiction|].
  inversion Hall as [|t' ts' Hp Hall']; subst.
  destruct (Duplicate_keeps_handles bits (fst t) (snd t) w) as [Kd Kv].
  destruct (Duplicate_publishing bits (fst t) (snd t) w Hd Hv Hp)
    as (_ & Hnext & _); cbv zeta in Hnext.
  unfold ticks in *; cbn [fold_left].
  destruct ts as [|t2 ts].
  - cbn [fold_left List.length]; rewrite Hnext; reflexivity.
  - rewrite IH; try congruence.
    rewrite Hnext; unfold next_frame_id.
    rewrite Zplus_mod_idemp_l; f_equal.
    cbn [List.length]; lia.
Qed.

(** C6 (as stated) fails on a 32-bit counter (the type in which [Monitor]
    keeps the frame id): once the counter has reached 2^32 - 1, two ticks
    that both publish give the frames the ids 4294967295 and 0. *)
Lemma published_ids_wrap :
  dupl_ (self wrapping_world) = true
  /\ device_ (self wrapping_world) = true
  /\ publishes good_tick = true
  /\ published_ids 32 [(16, good_tick); (16, good_tick)] wrapping_world
     = [4294967295; 0]
  /\ ~ StronglySorted Z.lt
         (published_ids 32 [(16, good_tick); (16, good_tick)] wrapping_world).
Proof.
  assert (E : published_ids 32 [(16, good_tick); (16, good_tick)]
                wrapping_world = [4294967295; 0]) by reflexivity.
  repeat split; try reflexivity.
  rewrite E; intro H.
  inversion H as [|a l _ Hall]; subst.
  inversion Hall as [|b l' Hlt _]; subst.
  lia.
Qed.

(** *** The capacity of the metadata buffer *)

Lemma Duplicate_capacity :
  forall bits timeout i w,
    capacity (Duplicate bits timeout i w)
    = if dupl_ (self w) && device_ (self w) && publishes i
      then Z.max (capacity w) (TotalMetadataBufferSize (frameInfo i))
      else capacity w.
Proof.
  intros bits timeout i w; unfold capacity.
  destruct (dupl_ (self w) && device_ (self w) && publishes i) eqn:G.
  - apply andb_true_iff in G; destruct G as [G Hp].
    apply andb_true_iff in G; destruct G as [Hd Hv].
    destruct (Duplicate_publishing bits timeout i w Hd Hv Hp) as (_ & _ & M).
    cbv zeta in M; rewrite M, metadata_after_buffer.
    apply ExpandIfNeeded_size.
  - destruct (Duplicate_not_publishing bits timeout i w G) as (_ & _ & M).
    cbv zeta in M; rewrite M; reflexivity.
Qed.

Lemma ticks_app :
  forall bits ts1 ts2 w,
    ticks bits (ts1 ++ ts2) w = ticks bits ts2 (ticks bits ts1 w).
Proof. intros; unfold ticks; apply fold_left_app. Qed.

Lemma ticks_capacity_le :
  forall bits ts w, capacity w <= capacity (ticks bits ts w).
Proof.
  intros bits ts; induction ts as [|t ts IH]; intro w.
  - apply Z.le_refl.
  - change (ticks bits (t :: ts) w)
      with (ticks bits ts (Duplicate bits (fst t) (snd t) w)).
    apply Z.le_trans with (capacity (Duplicate bits (fst t) (snd t) w));
      [|apply IH].
    rewrite Duplicate_capacity; destruct (_ && _); lia.
Qed.

Lemma ticks_capacity_max :
  forall bits ts w,
    dupl_ (self w) = true -> device_ (self w) = true ->
    capacity (ticks bits ts w)
    = fold_left Z.max (requested_sizes ts) (capacity w).
Proof.
  intros bits ts; induction ts as [|t ts IH]; intros w Hd Hv.
  - reflexivity.
  - destruct (Duplicate_keeps_handles bits (fst t) (snd t) w) as [Kd Kv].
    change (ticks bits (t :: ts) w)
      with (ticks bits ts (Duplicate bits (fst t) (snd t) w)).
    rewrite IH by congruence.
    rewrite Duplicate_capacity, Hd, Hv; simpl andb.
    unfold requested_sizes; rewrite publishing_ticks_cons.
    destruct (publishes (snd t)); reflexivity.
Qed.

(** C7.  Across any run of ticks the capacity of the metadata buffer never
    decreases, and after each tick it is the largest of the capacity the run
    started with and the sizes requested so far, also when a later frame
    requests less than an earlier one. *)
Theorem metadata_capacity_never_shrinks :
  forall (bits : Z) (ts1 ts2 : list (Z * TickInput)) (w : World),
    capacity (ticks bits ts1 w) <= capacity (ticks bits (ts1 ++ ts2) w)
    /\ (dupl_ (self w) = true -> device_ (self w) = true ->
        capacity (ticks bits ts1 w)
        = fold_left Z.max (requested_sizes ts1) (capacity w)).
Proof.
  intros bits ts1 ts2 w; split.
  - rewrite ticks_app; apply ticks_capacity_le.
  - apply ticks_capacity_max.
Qed.

Lemma metadata_capacity_never_shrinks_witness :
  capacity (ticks 32 [(16, good_tick); (16, small_tick)] constructed_world)
  = 4096.
Proof.
  rewrite (proj2 (metadata_capacity_never_shrinks 32
                    [(16, good_tick); (16, small_tick)] []
                    constructed_world) eq_refl eq_refl).
  reflexivity.
Defined.

(** *** Start, Stop and the capture thread *)

Lemma unjoined_snoc :
  forall evs e, unjoined (evs ++ [e]) = count_thread (unjoined evs) e.
Proof.
  intros evs e; unfold unjoined; rewrite fold_left_app; reflexivity.
Qed.

Lemma one_thread_nil : one_thread_at_most [].
Proof.
  intros p s H; symmetry in H; apply app_eq_nil in H; destruct H as [-> _].
  unfold unjoined; simpl; lia.
Qed.

Lemma one_thread_snoc :
  forall evs e,
    one_thread_at_most evs ->
    0 <= count_thread (unjoined evs) e <= 1 ->
    one_thread_at_most (evs ++ [e]).
Proof.
  intros evs e Hb He p s H.
  induction s as [|x s' _] using rev_ind.
  - rewrite app_nil_r in H; subst p; rewrite unjoined_snoc; exact He.
  - rewrite app_assoc in H; apply app_inj_tail in H; destruct H as [H _].
    apply (Hb p s'); exact H.
Qed.

(** Events that are neither a spawn nor a join change nothing. *)
Lemma one_thread_app_quiet :
  forall l evs,
    filter is_thread_event l = [] ->
    one_thread_at_most evs ->
    one_thread_at_most (evs ++ l) /\ unjoined (evs ++ l) = unjoined evs.
Proof.
  induction l as [|e l IH]; intros evs Hq Hb.
  - rewrite app_nil_r; auto.
  - simpl in Hq; destruct (is_thread_event e) eqn:He; [discriminate Hq|].
    assert (Hc : count_thread (unjoined evs) e = unjoined evs)
      by (destruct e; simpl in *; (reflexivity || discriminate He)).
    change (e :: l) with ([e] ++ l); rewrite app_assoc.
    destruct (IH (evs ++ [e]) Hq) as [B U].
    + apply one_thread_snoc; [exact Hb|].
      rewrite Hc; apply (Hb evs []); rewrite app_nil_r; reflexivity.
    + split; [exact B|].
      rewrite U, unjoined_snoc; exact Hc.
Qed.

Lemma Duplicate_thread_quiet :
  forall bits timeout i w,
    exists l,
      events (Duplicate bits timeout i w) = events w ++ l
      /\ filter is_thread_event l = [].
Proof.
  intros bits timeout i w.
  destruct (dupl_ (self w) && device_ (self w)) eqn:G.
  - apply andb_true_iff in G; destruct G as [Hd Hv].
    destruct (Duplicate_events bits timeout i w Hd Hv) as (l & E & T & _).
    destruct (Release_events (release_hr i) w) as (r & Er & Tr & _).
    exists (r ++ AcquireNextFrame timeout :: l); split.
    + rewrite E, Er, <- app_assoc; reflexivity.
    + rewrite filter_app; simpl; rewrite Tr, T; reflexivity.
  - rewrite Duplicate_guarded by exact G.
    exists []; rewrite app_nil_r; auto.
Qed.

(** No function of the session touches the caller, but [Start], [Stop] and
    the return of a [join()]. *)
Lemma Release_caller : forall hr w, caller (Release hr w) = caller w.
Proof.
  intros hr w; unfold Release.
  destruct (isFrameAcquired_ (self w)); [|reflexivity].
  destruct (FAILED hr); split_codes; reflexivity.
Qed.

Lemma UpdateMetadata_caller :
  forall total move dirty w,
    caller (UpdateMetadata total move dirty w) = caller w.
Proof.
  intros total move dirty w.
  unfold UpdateMetadata, UpdateDirtyRects, UpdateMoveRects.
  destruct (Empty _); simpl; [reflexivity|].
  destruct (rects_size move), (rects_size dirty),
    (FAILED (rects_hr move)), (FAILED (rects_hr dirty)); reflexivity.
Qed.

Lemma Duplicate_caller :
  forall bits timeout i w, caller (Duplicate bits timeout i w) = caller w.
Proof.
  intros bits timeout i w; unfold Duplicate.
  destruct (negb (dupl_ (self w)) || negb (device_ (self w)));
    [reflexivity|].
  destruct (FAILED (acquire_hr i)).
  - unfold acquire_failure; split_codes; simpl; apply Release_caller.
  - destruct (FAILED (as_texture_hr i)); [simpl; apply Release_caller|].
    destruct (sharedTexture i); [|simpl; apply Release_caller].
    simpl; rewrite UpdateMetadata_caller.
    unfold UpdateCursor.
    destruct (PointerPosition_Visible (frameInfo i)); simpl;
      match goal with |- context [Z.eqb ?a ?b] => destruct (Z.eqb a b) end;
      simpl; apply Release_caller.
Qed.

(** What a pass of a thread in its loop does to the thread, the caller and
    the trace. *)
Lemma capture_step_shape :
  forall bits frameRate i w,
    thread_ (self w) = Looping ->
    let w' := capture_step bits frameRate i w in
    caller w' = caller w
    /\ (thread_ (self w') = Looping \/ thread_ (self w') = Exited)
    /\ exists l, events w' = events w ++ l /\ filter is_thread_event l = [].
Proof.
  intros bits frameRate i w T; cbv zeta; unfold capture_step, loop_pass.
  rewrite T.
  destruct (shouldRun_ (self w)); simpl negb; cbv iota.
  - set (t := UINT_wrap (1000 / frameRate)).
    destruct (Duplicate_thread_quiet bits t i w) as (l & E & Q).
    pose proof (Duplicate_control bits t i w) as C.
    unfold control in C; injection C as _ _ _ _ Ct.
    pose proof (Duplicate_caller bits t i w) as Hc.
    destruct (State_eqb (state_ (self (Duplicate bits t i w))) Running);
      simpl negb; cbv beta iota; simpl; rewrite Hc, ?Ct, ?T;
      (split; [reflexivity|]); (split; [auto|]); eauto.
  - cbv beta iota; simpl; split; [reflexivity|]; split; [auto|].
    exists []; rewrite app_nil_r; auto.
Qed.

Lemma Stop_effect :
  forall w,
    shouldRun_ (self (Stop w)) = false
    /\ (thread_ (self w) = Spawned ->
        Stop w = set_caller InStop (modify (set_shouldRun_ false) w))
    /\ (thread_ (self w) <> Spawned ->
        thread_ (self (Stop w)) = NoThread
        /\ caller (Stop w) = caller w
        /\ events (Stop w)
           = events w
             ++ (if joinable (thread_ (self w)) then [ThreadJoin] else [])).
Proof.
  intro w; unfold Stop.
  change (thread_ (self (modify (set_shouldRun_ false) w)))
    with (thread_ (self w)).
  destruct (thread_ (self w)) eqn:T; simpl; rewrite ?app_nil_r.
  - split; [reflexivity|]; split; [discriminate | auto].
  - split; [reflexivity|]; split; [reflexivity | congruence].
  - unfold thread_leave; destruct (State_eqb _ _); simpl;
      (split; [reflexivity|]); (split; [discriminate | auto]).
  - split; [reflexivity|]; split; [discriminate | auto].
Qed.

Lemma Stop_invariant :
  forall w, thread_invariant w -> thread_invariant (Stop w).
Proof.
  intros w [Hb Hu].
  destruct (Stop_effect w) as (_ & Hs & Hn).
  destruct (thread_ (self w)) eqn:T; simpl in Hu;
    try (rewrite Hs by reflexivity; split; simpl; rewrite ?T; assumption).
  - destruct Hn as (Ht & _ & He); [discriminate|].
    split; rewrite He, ?Ht, app_nil_r; assumption.
  - destruct Hn as (Ht & _ & He); [discriminate|].
    split; rewrite He, ?Ht; simpl.
    + apply one_thread_snoc; [exact Hb | rewrite Hu; simpl; lia].
    + rewrite unjoined_snoc, Hu; reflexivity.
  - destruct Hn as (Ht & _ & He); [discriminate|].
    split; rewrite He, ?Ht; simpl.
    + apply one_thread_snoc; [exact Hb | rewrite Hu; simpl; lia].
    + rewrite unjoined_snoc, Hu; reflexivity.
Qed.

Lemma spawn_invariant :
  forall w,
    thread_invariant w -> thread_ (self w) = NoThread ->
    thread_invariant (spawn w).
Proof.
  intros w [Hb Hu] T; rewrite T in Hu; simpl in Hu.
  split; simpl.
  - apply one_thread_snoc; [exact Hb | rewrite Hu; simpl; lia].
  - rewrite unjoined_snoc, Hu; reflexivity.
Qed.

Lemma join_returns_invariant :
  forall w,
    thread_invariant w -> joinable (thread_ (self w)) = true ->
    thread_invariant (join_returns w)
    /\ thread_ (self (join_returns w)) = NoThread.
Proof.
  intros w [Hb Hu] T; rewrite T in Hu.
  split; [split; simpl|reflexivity].
  - apply one_thread_snoc; [exact Hb | rewrite Hu; simpl; lia].
  - rewrite unjoined_snoc, Hu; reflexivity.
Qed.

Lemma Start_invariant :
  forall w, thread_invariant w -> thread_invariant (Start w).
Proof.
  intros w Hi; unfold Start.
  destruct (State_eqb (state_ (self w)) Ready); simpl; [|exact Hi].
  pose proof (Stop_invariant w Hi) as Hs.
  destruct (joinable (thread_ (self (Stop w)))) eqn:J; [exact Hs|].
  apply spawn_invariant; [exact Hs|].
  destruct (thread_ (self (Stop w))); try discriminate J; reflexivity.
Qed.

Lemma thread_entry_invariant :
  forall w, thread_invariant w -> thread_invariant (thread_entry w).
Proof.
  intros w [Hb Hu]; unfold thread_entry.
  destruct (thread_ (self w)) eqn:T; split; simpl; rewrite ?T; assumption.
Qed.

Lemma capture_step_invariant :
  forall bits frameRate i w,
    thread_invariant w -> thread_invariant (capture_step bits frameRate i w).
Proof.
  intros bits frameRate i w [Hb Hu].
  destruct (thread_ (self w)) eqn:T;
    try (unfold capture_step; rewrite T; split;
         [exact Hb | rewrite T; exact Hu]).
  destruct (capture_step_shape bits frameRate i w T) as (_ & Ht & l & E & Q).
  destruct (one_thread_app_quiet l (events w) Q Hb) as [B U].
  split; rewrite E; [exact B|].
  rewrite U, Hu; destruct Ht as [Ht | Ht]; rewrite Ht; reflexivity.
Qed.

Lemma resume_invariant :
  forall w,
    thread_invariant w -> thread_ (self w) = Exited ->
    thread_invariant (resume w).
Proof.
  intros w Hi T; unfold resume.
  assert (J : joinable (thread_ (self w)) = true) by (rewrite T; reflexivity).
  destruct (join_returns_invariant w Hi J) as [Hj Hn].
  destruct (caller w); [exact Hi | exact Hj|].
  apply (spawn_invariant _ Hj Hn).
Qed.

Lemma step_invariant :
  forall bits o w, thread_invariant w -> thread_invariant (step bits w o).
Proof.
  intros bits o w Hi; destruct o; simpl.
  - destruct (caller w); [apply Start_invariant| |]; exact Hi.
  - destruct (caller w); [apply Stop_invariant| |]; exact Hi.
  - apply thread_entry_invariant; exact Hi.
  - pose proof (capture_step_invariant bits frameRate i w Hi) as Hc.
    destruct (thread_ (self w)); try exact Hc.
    destruct (thread_ (self (capture_step bits frameRate i w))) eqn:T;
      try exact Hc.
    apply resume_invariant; assumption.
Qed.

Lemma run_invariant :
  forall bits ops w,
    thread_invariant w -> thread_invariant (run bits ops w).
Proof.
  intros bits ops; induction ops as [|o ops IH]; intros w Hi; [exact Hi|].
  change (run bits (o :: ops) w) with (run bits ops (step bits w o)).
  apply IH, step_invariant; exact Hi.
Qed.

Lemma no_thread_invariant :
  forall w,
    filter is_thread_event (events w) = [] -> thread_ (self w) = NoThread ->
    thread_invariant w.
Proof.
  intros w He Ht.
  destruct (one_thread_app_quiet (events w) [] He one_thread_nil) as [B U].
  split; [exact B|].
  rewrite Ht; exact U.
Qed.

(** C5 (as amended).  [Start] does nothing unless the state is Ready: called
    on a running session it neither stops nor restarts the capture thread.
    When the state is Ready it first performs a full [Stop]: it clears the
    run flag and joins the capture thread when there is one, and only then
    spawns the new thread.  While that [join()] has not returned, because the
    thread to join has not left its loop, nothing is spawned; the spawn
    follows the join when the thread leaves.  So in every run of a session
    that starts without a thread, at no point of the trace are two capture
    threads spawned and not joined. *)
Theorem Start_stops_before_spawn :
  forall (w : World),
    (state_ (self w) <> Ready -> Start w = w)
    /\ (state_ (self w) = Ready ->
        shouldRun_ (self (Start w)) = false
        /\ filter is_thread_event (events_since w (Start w))
           = match thread_ (self w) with
             | NoThread => [ThreadSpawn]
             | Spawned => []
             | Looping | Exited => [ThreadJoin; ThreadSpawn]
             end
        /\ (thread_ (self w) = Spawned ->
            caller (Start w) = InStart /\ thread_ (self (Start w)) = Spawned)
        /\ (thread_ (self w) <> Spawned ->
            caller (Start w) = caller w /\ thread_ (self (Start w)) = Spawned))
    /\ (caller w = InStart -> thread_ (self w) = Looping ->
        forall bits frameRate i,
          let w' := step bits w (OpCapture frameRate i) in
          (thread_ (self w') = Looping /\ caller w' = InStart
           /\ filter is_thread_event (events_since w w') = [])
          \/ (thread_ (self w') = Spawned /\ caller w' = Idle
              /\ filter is_thread_event (events_since w w')
                 = [ThreadJoin; ThreadSpawn]))
    /\ (filter is_thread_event (events w) = [] -> thread_ (self w) = NoThread ->
        forall bits ops,
          one_thread_at_most (events (run bits ops w))).
Proof.
  intro w; split; [|split; [|split]].
  - intro H; apply State_eqb_neq in H; unfold Start; rewrite H; reflexivity.
  - intro H; destruct (Stop_effect w) as (Hf & Hs & Hn).
    unfold Start; rewrite H; simpl negb; cbv iota zeta.
    destruct (thread_ (self w)) eqn:T.
    + destruct Hn as (Ht & Hc & He); [discriminate|].
      rewrite Ht; simpl joinable; cbv iota.
      split; [exact Hf|]; split; [|split; [discriminate | auto]].
      rewrite (events_since_app w (spawn (Stop w)) [ThreadSpawn])
        by (simpl; rewrite He; simpl; rewrite app_nil_r; reflexivity).
      reflexivity.
    + rewrite Hs by reflexivity; simpl; rewrite T; simpl.
      split; [reflexivity|]; split; [|split; [auto | congruence]].
      unfold events_since; simpl.
      rewrite <- (app_nil_r (events w)) at 2.
      rewrite skipn_app_exact; reflexivity.
    + destruct Hn as (Ht & Hc & He); [discriminate|].
      rewrite Ht; simpl joinable; cbv iota.
      split; [exact Hf|]; split; [|split; [discriminate | auto]].
      rewrite (events_since_app w (spawn (Stop w)) [ThreadJoin; ThreadSpawn])
        by (simpl; rewrite He; simpl; rewrite <- app_assoc; reflexivity).
      reflexivity.
    + destruct Hn as (Ht & Hc & He); [discriminate|].
      rewrite Ht; simpl joinable; cbv iota.
      split; [exact Hf|]; split; [|split; [discriminate | auto]].
      rewrite (events_since_app w (spawn (Stop w)) [ThreadJoin; ThreadSpawn])
        by (simpl; rewrite He; simpl; rewrite <- app_assoc; reflexivity).
      reflexivity.
  - intros Hc Ht bits frameRate i; cbv zeta.
    destruct (capture_step_shape bits frameRate i w Ht)
      as (Hc' & Ht' & l & E & Q).
    unfold step; cbv zeta; rewrite Ht.
    remember (capture_step bits frameRate i w) as w1 eqn:Ew1.
    destruct Ht' as [Ht' | Ht']; rewrite Ht'.
    + left; split; [exact Ht'|]; split; [congruence|].
      rewrite (events_since_app _ _ _ E); exact Q.
    + right; unfold resume; rewrite Hc', Hc.
      split; [reflexivity|]; split; [reflexivity|].
      rewrite (events_since_app w _ (l ++ [ThreadJoin; ThreadSpawn])).
      * rewrite filter_app, Q; reflexivity.
      * simpl; rewrite E, <- !app_assoc; reflexivity.
  - intros He Ht bits ops.
    apply (run_invariant bits ops w), no_thread_invariant; assumption.
Qed.

Lemma Start_stops_before_spawn_witness :
  caller (Start (Start constructed_world)) = InStart
  /\ filter is_thread_event
       (events_since (run 32 [OpStart; OpStart; OpEnter] constructed_world)
          (run 32 [OpStart; OpStart; OpEnter; OpCapture 60 access_lost_tick]
             constructed_world))
     = [ThreadJoin; ThreadSpawn]
  /\ one_thread_at_most
       (events (run 32 [OpStart; OpStart; OpEnter;
                        OpCapture 60 access_lost_tick; OpEnter;
                        OpCapture 60 good_tick; OpStop]
                  constructed_world)).
Proof.
  split; [|split].
  - destruct (Start_stops_before_spawn (Start constructed_world))
      as (_ & H & _).
    destruct (H eq_refl) as (_ & _ & Hs & _).
    exact (proj1 (Hs eq_refl)).
  - destruct (Start_stops_before_spawn
                (run 32 [OpStart; OpStart; OpEnter] constructed_world))
      as (_ & _ & H & _).
    destruct (H eq_refl eq_refl 32 60 access_lost_tick)
      as [(Ht & _) | (_ & _ & He)]; [discriminate Ht | exact He].
  - exact (proj2 (proj2 (proj2 (Start_stops_before_spawn constructed_world)))
             eq_refl eq_refl 32 _).
Defined.

(** C5 (as stated) fails: [Start] on a running session returns at its first
    line.  It does not call [Stop] (nothing is joined and the run flag stays
    set, where [Stop] would clear it) and it spawns nothing. *)
Lemma Start_while_running_is_noop :
  state_ (self running_world) = Running
  /\ thread_ (self running_world) = Looping
  /\ Start running_world = running_world
  /\ filter is_thread_event (events_since running_world (Start running_world))
     = []
  /\ shouldRun_ (self (Start running_world)) = true
  /\ shouldRun_ (self (Stop running_world)) = false
  /\ filter is_thread_event (events_since running_world (Stop running_world))
     = [ThreadJoin].
Proof.
  repeat split.
Qed.

(** ** Further properties *)

(** *** The states a tick can leave *)

Lemma Release_state_range :
  forall hr w,
    state_ (self (Release hr w)) = state_ (self w)
    \/ state_ (self (Release hr w)) = AccessLost
    \/ state_ (self (Release hr w)) = Unknown.
Proof.
  intros hr w; rewrite Release_state.
  destruct (_ && _); split_codes; auto.
Qed.

(** After the guard, the state of a tick is the one its [Release] left,
    unless the acquisition failed with a code that sets a state. *)
Lemma Duplicate_state :
  forall bits timeout i w,
    dupl_ (self w) = true -> device_ (self w) = true ->
    state_ (self (Duplicate bits timeout i w))
    = if FAILED (acquire_hr i) then
        if acquire_hr i =? DXGI_ERROR_ACCESS_LOST then AccessLost
        else if acquire_hr i =? DXGI_ERROR_WAIT_TIMEOUT
        then state_ (self (Release (release_hr i) w))
        else if acquire_hr i =? DXGI_ERROR_INVALID_CALL
        then state_ (self (Release (release_hr i) w))
        else if acquire_hr i =? E_INVALIDARG
        then state_ (self (Release (release_hr i) w))
        else Unknown
      else state_ (self (Release (release_hr i) w)).
Proof.
  intros bits timeout i w Hd Hv.
  destruct (FAILED (acquire_hr i)) eqn:Hf.
  - rewrite (Duplicate_failed bits timeout i w Hd Hv Hf).
    match goal with
    | |- context [acquire_failure ?h ?x] =>
        destruct (acquire_failure_effect h x) as (S & _)
    end.
    cbv zeta in S; rewrite S; reflexivity.
  - destruct (publishes i) eqn:Hp.
    + destruct (publishes_inv i Hp) as (_ & Ht & shared & Hs).
      rewrite (Duplicate_published_self bits timeout i w shared Hd Hv Hf Ht Hs).
      reflexivity.
    + destruct (publishes_false i Hp) as [Hf' | [_ Hu]];
        [rewrite Hf in Hf'; discriminate Hf'|].
      destruct (Duplicate_unpublished bits timeout i w Hd Hv Hf Hu)
        as (msg & E).
      rewrite E; reflexivity.
Qed.

Lemma Duplicate_state_cases :
  forall bits timeout i w,
    state_ (self (Duplicate bits timeout i w)) = state_ (self w)
    \/ state_ (self (Duplicate bits timeout i w)) = AccessLost
    \/ state_ (self (Duplicate bits timeout i w)) = Unknown.
Proof.
  intros bits timeout i w.
  destruct (dupl_ (self w) && device_ (self w)) eqn:G;
    [|rewrite Duplicate_guarded by exact G; auto].
  apply andb_true_iff in G; destruct G as [Hd Hv].
  rewrite (Duplicate_state bits timeout i w Hd Hv).
  pose proof (Release_state_range (release_hr i) w) as R.
  destruct (FAILED (acquire_hr i)); split_codes; auto.
Qed.

(** X1.  A tick, and so any run of ticks, leaves the state it found, or
    AccessLost, or Unknown: no tick makes a session Ready or Running, and no
    tick brings a session out of AccessDenied, Unsupported and the other
    states of a failed construction except into AccessLost or Unknown. *)
Theorem ticks_state_range :
  forall (bits : Z) (ts : list (Z * TickInput)) (w : World),
    state_ (self (ticks bits ts w)) = state_ (self w)
    \/ state_ (self (ticks bits ts w)) = AccessLost
    \/ state_ (self (ticks bits ts w)) = Unknown.
Proof.
  intros bits ts; induction ts as [|t ts IH]; intro w; [left; reflexivity|].
  change (ticks bits (t :: ts) w)
    with (ticks bits ts (Duplicate bits (fst t) (snd t) w)).
  destruct (IH (Duplicate bits (fst t) (snd t) w)) as [H | [H | H]];
    rewrite H; auto.
  apply Duplicate_state_cases.
Qed.

(** *** Running means looping *)

Lemma thread_leave_state :
  forall d,
    state_ (thread_leave d)
    = if State_eqb (state_ d) Running then Ready else state_ d.
Proof.
  intro d; unfold thread_leave; destruct (State_eqb (state_ d) Running);
    reflexivity.
Qed.

Lemma thread_leave_not_running :
  forall d, state_ (thread_leave d) <> Running.
Proof.
  intro d; rewrite thread_leave_state.
  destruct (State_eqb (state_ d) Running) eqn:E; [discriminate|].
  apply State_eqb_neq; exact E.
Qed.

Lemma Stop_state :
  forall w,
    state_ (self (Stop w))
    = match thread_ (self w) with
      | Looping =>
          if State_eqb (state_ (self w)) Running then Ready
          else state_ (self w)
      | NoThread | Spawned | Exited => state_ (self w)
      end.
Proof.
  intro w; unfold Stop.
  change (thread_ (self (modify (set_shouldRun_ false) w)))
    with (thread_ (self w)).
  destruct (thread_ (self w)); simpl; try reflexivity.
  rewrite thread_leave_state; reflexivity.
Qed.

Lemma Start_not_Ready :
  forall w, state_ (self w) <> Ready -> Start w = w.
Proof.
  intros w H; apply State_eqb_neq in H; unfold Start; rewrite H; reflexivity.
Qed.

Lemma not_looping_means_not_running :
  forall w,
    state_ (self w) <> Running -> thread_ (self w) <> Looping ->
    running_means_looping w.
Proof.
  intros w Hs Ht; split; [split; intro E|intro E]; contradiction.
Qed.

Lemma Stop_running_means_looping :
  forall w, running_means_looping w -> running_means_looping (Stop w).
Proof.
  intros w [Hiff Hrun].
  destruct (Stop_effect w) as (_ & Hsp & Hn).
  apply not_looping_means_not_running.
  - rewrite Stop_state; destruct (thread_ (self w)) eqn:T.
    + intro E; apply Hiff in E; discriminate E.
    + intro E; apply Hiff in E; discriminate E.
    + destruct (State_eqb (state_ (self w)) Running) eqn:E; [discriminate|].
      apply State_eqb_neq; exact E.
    + intro E; apply Hiff in E; discriminate E.
  - destruct (thread_ (self w)) eqn:T;
      try (destruct Hn as (Ht & _); [discriminate|]; rewrite Ht; discriminate).
    rewrite Hsp by reflexivity; simpl; rewrite T; discriminate.
Qed.

Lemma Start_running_means_looping :
  forall w, running_means_looping w -> running_means_looping (Start w).
Proof.
  intros w Hi; unfold Start.
  destruct (State_eqb (state_ (self w)) Ready); simpl negb; cbv iota zeta;
    [|exact Hi].
  pose proof (Stop_running_means_looping w Hi) as Hs.
  destruct (joinable (thread_ (self (Stop w)))) eqn:J; [exact Hs|].
  destruct Hs as [Hiff _].
  apply not_looping_means_not_running; simpl; [|discriminate].
  intro E; apply Hiff in E; rewrite E in J; discriminate J.
Qed.

Lemma thread_entry_running_means_looping :
  forall w, running_means_looping w -> running_means_looping (thread_entry w).
Proof.
  intros w Hi; unfold thread_entry.
  destruct (thread_ (self w)); try exact Hi.
  split; [split; intro|intro]; reflexivity.
Qed.

Lemma capture_step_running_means_looping :
  forall bits frameRate i w,
    running_means_looping w ->
    running_means_looping (capture_step bits frameRate i w).
Proof.
  intros bits frameRate i w Hi; unfold capture_step.
  destruct (thread_ (self w)) eqn:T; try exact Hi.
  unfold loop_pass.
  assert (Hexit : forall x,
             running_means_looping
               (modify (set_thread_ Exited) (modify thread_leave x))).
  { intro x; split; [split; intro E|intro E]; simpl in E;
      try discriminate E.
    exfalso; exact (thread_leave_not_running _ E). }
  destruct (shouldRun_ (self w)) eqn:R; simpl negb; cbv iota;
    [|cbv beta iota; apply Hexit].
  set (t := UINT_wrap (1000 / frameRate)).
  pose proof (Duplicate_control bits t i w) as C.
  unfold control in C; injection C as _ _ _ Cr Ct.
  destruct (State_eqb (state_ (self (Duplicate bits t i w))) Running) eqn:E;
    simpl negb; cbv beta iota; [|apply Hexit].
  apply State_eqb_eq in E.
  split; [split; intro; congruence | intro; congruence].
Qed.

Lemma resume_running_means_looping :
  forall w,
    running_means_looping w -> thread_ (self w) = Exited ->
    running_means_looping (resume w).
Proof.
  intros w [Hiff Hrun] T; unfold resume.
  assert (Hs : state_ (self w) <> Running)
    by (intro E; apply Hiff in E; rewrite T in E; discriminate E).
  destruct (caller w); [split; assumption| |];
    apply not_looping_means_not_running; simpl; (exact Hs || discriminate).
Qed.

Lemma step_running_means_looping :
  forall bits o w,
    running_means_looping w -> running_means_looping (step bits w o).
Proof.
  intros bits o w Hi; destruct o; simpl.
  - destruct (caller w); [apply Start_running_means_looping| |]; exact Hi.
  - destruct (caller w); [apply Stop_running_means_looping| |]; exact Hi.
  - apply thread_entry_running_means_looping; exact Hi.
  - pose proof (capture_step_running_means_looping bits frameRate i w Hi)
      as Hc.
    destruct (thread_ (self w)); try exact Hc.
    destruct (thread_ (self (capture_step bits frameRate i w))) eqn:T;
      try exact Hc.
    apply resume_running_means_looping; assumption.
Qed.

Lemma run_running_means_looping :
  forall bits ops w,
    running_means_looping w -> running_means_looping (run bits ops w).
Proof.
  intros bits ops; induction ops as [|o ops IH]; intros w Hi; [exact Hi|].
  change (run bits (o :: ops) w) with (run bits ops (step bits w o)).
  apply IH, step_running_means_looping; exact Hi.
Qed.

(** X2.  In every run of a session that starts with no thread and not
    Running, the state is Running exactly while a capture thread is in its
    loop, and then the run flag is set: [IsRunning] never reports a thread
    that has left its loop, and a thread that leaves its loop never leaves
    the state Running. *)
Theorem IsRunning_iff_looping :
  forall (bits : Z) (ops : list Op) (w : World),
    thread_ (self w) = NoThread ->
    state_ (self w) <> Running ->
    let w' := run bits ops w in
    (IsRunning (self w') = true <-> thread_ (self w') = Looping)
    /\ (IsRunning (self w') = true -> shouldRun_ (self w') = true).
Proof.
  intros bits ops w Ht Hs; cbv zeta.
  assert (Hi : running_means_looping w).
  { split; [split; intro E|intro E]; try contradiction;
      rewrite Ht in E; discriminate E. }
  destruct (run_running_means_looping bits ops w Hi) as [Hiff Hrun].
  unfold IsRunning; rewrite State_eqb_eq.
  split; [exact Hiff | intro E; apply Hrun, Hiff; exact E].
Qed.

Lemma IsRunning_iff_looping_witness :
  IsRunning (self (run 32 [OpStart; OpEnter; OpCapture 60 good_tick]
                     constructed_world))
  = true
  /\ thread_ (self (run 32 [OpStart; OpEnter; OpCapture 60 good_tick]
                      constructed_world)) = Looping.
Proof.
  assert (Hs : state_ (self constructed_world) <> Running) by discriminate.
  destruct (IsRunning_iff_looping 32 [OpStart; OpEnter; OpCapture 60 good_tick]
              constructed_world eq_refl Hs) as [Hiff _].
  split; [reflexivity | apply Hiff; reflexivity].
Defined.

(** *** Error states *)

Lemma IsError_states :
  forall d,
    IsError d = true <-> state_ d <> Ready /\ state_ d <> Running.
Proof.
  intro d; unfold IsError.
  rewrite andb_true_iff, !negb_true_iff, !State_eqb_neq; reflexivity.
Qed.

(** A step of a session in an error state, with no thread spawned or in
    the loop. *)
Lemma step_in_error :
  forall bits o w,
    IsError (self w) = true ->
    thread_ (self w) <> Spawned -> thread_ (self w) <> Looping ->
    state_ (self (step bits w o)) = state_ (self w)
    /\ thread_ (self (step bits w o)) <> Spawned
    /\ thread_ (self (step bits w o)) <> Looping
    /\ exists l,
         events (step bits w o) = events w ++ l
         /\ Forall (fun e => e = ThreadJoin) l.
Proof.
  intros bits o w He Hsp Ht.
  apply IsError_states in He; destruct He as [Hr _].
  assert (Hsame : state_ (self w) = state_ (self w)
                  /\ thread_ (self w) <> Spawned
                  /\ thread_ (self w) <> Looping
                  /\ exists l, events w = events w ++ l
                               /\ Forall (fun e => e = ThreadJoin) l).
  { repeat split; [exact Hsp | exact Ht|].
    exists []; rewrite app_nil_r; auto. }
  destruct o; simpl.
  - destruct (caller w); try exact Hsame.
    rewrite Start_not_Ready by exact Hr; exact Hsame.
  - destruct (caller w); try exact Hsame.
    destruct (Stop_effect w) as (_ & _ & Hn).
    destruct (Hn Hsp) as (Hno & _ & Hev).
    split; [|split; [|split]].
    + rewrite Stop_state; destruct (thread_ (self w)) eqn:T;
        try reflexivity; congruence.
    + rewrite Hno; discriminate.
    + rewrite Hno; discriminate.
    + eexists; split; [exact Hev|].
      destruct (joinable (thread_ (self w))); auto.
  - unfold thread_entry; destruct (thread_ (self w)) eqn:T;
      try exact Hsame; congruence.
  - unfold capture_step; destruct (thread_ (self w)) eqn:T;
      try (rewrite T; exact Hsame); congruence.
Qed.

Lemma run_in_error :
  forall bits ops w,
    IsError (self w) = true ->
    thread_ (self w) <> Spawned -> thread_ (self w) <> Looping ->
    state_ (self (run bits ops w)) = state_ (self w)
    /\ thread_ (self (run bits ops w)) <> Spawned
    /\ thread_ (self (run bits ops w)) <> Looping
    /\ exists l,
         events (run bits ops w) = events w ++ l
         /\ Forall (fun e => e = ThreadJoin) l.
Proof.
  intros bits ops; induction ops as [|o ops IH]; intros w He Hsp Ht.
  - repeat split; [exact Hsp | exact Ht|].
    exists []; rewrite app_nil_r; auto.
  - change (run bits (o :: ops) w) with (run bits ops (step bits w o)).
    destruct (step_in_error bits o w He Hsp Ht)
      as (Hs & Hsp' & Hth & l & Hev & Hl).
    assert (He' : IsError (self (step bits w o)) = true)
      by (unfold IsError in *; rewrite Hs; exact He).
    destruct (IH (step bits w o) He' Hsp' Hth)
      as (Hs2 & Hsp2 & Hth2 & l2 & Hev2 & Hl2).
    split; [congruence|]; split; [exact Hsp2|]; split; [exact Hth2|].
    exists (l ++ l2); split.
    + rewrite Hev2, Hev, app_assoc; reflexivity.
    + apply Forall_app; auto.
Qed.

(** X3.  An error state is final for the session itself: once [IsError]
    holds and no capture thread is spawned or in its loop, no sequence of
    [Start], [Stop], thread entries and loop passes changes the state or
    brings a thread back, and the only thing such a sequence still does to
    the outside is to join the thread that exited. *)
Theorem error_state_is_final :
  forall (bits : Z) (ops : list Op) (w : World),
    IsError (self w) = true ->
    thread_ (self w) <> Spawned ->
    thread_ (self w) <> Looping ->
    let w' := run bits ops w in
    state_ (self w') = state_ (self w)
    /\ thread_ (self w') <> Spawned
    /\ thread_ (self w') <> Looping
    /\ Forall (fun e => e = ThreadJoin) (events_since w w').
Proof.
  intros bits ops w He Hsp Ht; cbv zeta.
  destruct (run_in_error bits ops w He Hsp Ht)
    as (Hs & Hsp' & Hth & l & Hev & Hl).
  rewrite (events_since_app _ _ _ Hev); auto.
Qed.

Lemma error_state_is_final_witness :
  state_ (self (run 32 [OpStart; OpEnter; OpCapture 60 good_tick; OpStop;
                        OpStart]
                  lost_world)) = AccessLost
  /\ events_since lost_world
       (run 32 [OpStart; OpEnter; OpCapture 60 good_tick; OpStop; OpStart]
          lost_world)
     = [ThreadJoin].
Proof.
  assert (Hsp : thread_ (self lost_world) <> Spawned) by discriminate.
  assert (Ht : thread_ (self lost_world) <> Looping) by discriminate.
  destruct (error_state_is_final 32
              [OpStart; OpEnter; OpCapture 60 good_tick; OpStop; OpStart]
              lost_world eq_refl Hsp Ht) as (Hs & _ & _).
  split; [rewrite Hs; reflexivity | reflexivity].
Defined.

(** *** Stop, the destructor and restarting *)

(** X4.  After any run of a session that started without a thread, the
    destructor, which is [Stop], either finds a capture thread that was
    spawned and has not entered yet, and then waits in [join()] with that
    thread still unjoined, or leaves no thread behind: every spawned thread
    has been joined, [thread_] is not joinable, the run flag is clear and
    the state is not Running. *)
Theorem destroy_joins_the_thread :
  forall (bits : Z) (ops : list Op) (w : World),
    filter is_thread_event (events w) = [] ->
    thread_ (self w) = NoThread ->
    state_ (self w) <> Running ->
    let r := run bits ops w in
    let w' := destroy r in
    (thread_ (self r) = Spawned ->
     caller w' = InStop
     /\ thread_ (self w') = Spawned
     /\ unjoined (events w') = 1)
    /\ (thread_ (self r) <> Spawned ->
        joinable (thread_ (self w')) = false
        /\ unjoined (events w') = 0
        /\ shouldRun_ (self w') = false
        /\ state_ (self w') <> Running).
Proof.
  intros bits ops w He Ht Hs; cbv zeta; unfold destroy.
  pose proof (run_invariant bits ops w (no_thread_invariant w He Ht)) as Hi.
  assert (Hr : running_means_looping w)
    by (apply not_looping_means_not_running;
        [exact Hs | rewrite Ht; discriminate]).
  pose proof (Stop_invariant _ Hi) as [_ Hu].
  destruct (Stop_effect (run bits ops w)) as (Hflag & Hsp & Hn).
  destruct (Stop_running_means_looping _
              (run_running_means_looping bits ops w Hr)) as [Hiff _].
  split.
  - intro T; rewrite (Hsp T) in *; simpl in *; rewrite T in *; auto.
  - intro T; destruct (Hn T) as (Hno & _ & _).
    rewrite Hno in *; repeat split; try assumption.
    intro E; apply Hiff in E; discriminate E.
Qed.

Lemma destroy_joins_the_thread_witness :
  unjoined (events (destroy (run 32 [OpStart; OpEnter; OpCapture 60 good_tick]
                               constructed_world))) = 0
  /\ caller (destroy (run 32 [OpStart] constructed_world)) = InStop.
Proof.
  assert (Hs : state_ (self constructed_world) <> Running) by discriminate.
  split.
  - assert (Ht : thread_ (self (run 32 [OpStart; OpEnter;
                                         OpCapture 60 good_tick]
                                  constructed_world)) <> Spawned)
      by discriminate.
    exact (proj1 (proj2 (proj2 (destroy_joins_the_thread 32
                                  [OpStart; OpEnter; OpCapture 60 good_tick]
                                  constructed_world eq_refl eq_refl Hs) Ht))).
  - exact (proj1 (proj1 (destroy_joins_the_thread 32 [OpStart]
                           constructed_world eq_refl eq_refl Hs) eq_refl)).
Defined.



(** A pass of a running session with its run flag set. *)
Lemma capture_pass_cases :
  forall bits frameRate i w,
    thread_ (self w) = Looping ->
    state_ (self w) = Running ->
    shouldRun_ (self w) = true ->
    let w' := capture_step bits frameRate i w in
    caller w' = caller w
    /\ shouldRun_ (self w') = true
    /\ ((state_ (self w') = Running /\ thread_ (self w') = Looping)
        \/ (thread_ (self w') = Exited
            /\ (state_ (self w') = AccessLost
                \/ state_ (self w') = Unknown))).
Proof.
  intros bits frameRate i w Ht Hs Hr; cbv zeta.
  destruct (capture_step_shape bits frameRate i w Ht) as (Hc & _ & _).
  split; [exact Hc|].
  unfold capture_step, loop_pass; rewrite Ht, Hr; simpl negb; cbv iota.
  set (t := UINT_wrap (1000 / frameRate)).
  pose proof (Duplicate_control bits t i w) as C.
  unfold control in C; injection C as _ _ _ Cr Ct.
  destruct (State_eqb (state_ (self (Duplicate bits t i w))) Running) eqn:E;
    simpl negb; cbv beta iota.
  - apply State_eqb_eq in E.
    split; [congruence|]; left; split; congruence.
  - apply State_eqb_neq in E.
    assert (Hleave : thread_leave (self (Duplicate bits t i w))
                     = self (Duplicate bits t i w)).
    { unfold thread_leave.
      destruct (State_eqb _ Running) eqn:E'; [|reflexivity].
      apply State_eqb_eq in E'; contradiction. }
    simpl; rewrite Hleave; simpl.
    split; [congruence|]; right; split; [reflexivity|].
    destruct (Duplicate_state_cases bits t i w) as [H | [H | H]]; auto.
    rewrite Hs in H; contradiction.
Qed.

(** X6.  A [Stop] that arrives before the spawned thread has entered does
    not stop it: the thread enters after the run flag was cleared, sets it
    again and runs its loop.  That [Stop] waits in [join()] for as long as
    the passes leave the state Running; it returns only when a pass ends
    the loop in AccessLost or Unknown, and it then returns with the run flag
    set. *)
Theorem Stop_before_entry_waits_for_error :
  forall (bits : Z) (passes : list (Z * TickInput)) (w : World),
    thread_ (self w) = Spawned ->
    caller w = Idle ->
    let w' :=
      run bits
        (OpStop :: OpEnter
         :: map (fun p => OpCapture (fst p) (snd p)) passes) w in
    (caller w' = InStop
     /\ thread_ (self w') = Looping
     /\ state_ (self w') = Running
     /\ shouldRun_ (self w') = true)
    \/ (caller w' = Idle
        /\ thread_ (self w') = NoThread
        /\ shouldRun_ (self w') = true
        /\ (state_ (self w') = AccessLost \/ state_ (self w') = Unknown)).
Proof.
  intros bits passes w Ht Hc; cbv zeta.
  change (run bits (OpStop :: OpEnter :: ?ops) w)
    with (run bits ops (step bits (step bits w OpStop) OpEnter)).
  destruct (Stop_effect w) as (_ & Hsp & _).
  assert (Hstart : caller (step bits (step bits w OpStop) OpEnter) = InStop
                   /\ thread_ (self (step bits (step bits w OpStop) OpEnter))
                      = Looping
                   /\ state_ (self (step bits (step bits w OpStop) OpEnter))
                      = Running
                   /\ shouldRun_ (self (step bits (step bits w OpStop)
                                          OpEnter)) = true).
  { simpl step; rewrite Hc, (Hsp Ht).
    unfold thread_entry; simpl; rewrite Ht; repeat split. }
  revert Hstart.
  generalize (step bits (step bits w OpStop) OpEnter) as x.
  induction passes as [|p passes IH]; intros x Hx; [left; exact Hx|].
  change (run bits (map (fun p => OpCapture (fst p) (snd p)) (p :: passes)) x)
    with (run bits (map (fun p => OpCapture (fst p) (snd p)) passes)
            (step bits x (OpCapture (fst p) (snd p)))).
  destruct Hx as (Hxc & Hxt & Hxs & Hxr).
  destruct (capture_pass_cases bits (fst p) (snd p) x Hxt Hxs Hxr)
    as (Kc & Kr & [[Ks Kt] | [Kt Ks]]).
  - apply IH; simpl step; rewrite Hxt, Kt; repeat split; congruence.
  - assert (Hdone :
        forall y,
          caller y = Idle /\ thread_ (self y) = NoThread
          /\ shouldRun_ (self y) = true
          /\ (state_ (self y) = AccessLost \/ state_ (self y) = Unknown) ->
          caller (run bits (map (fun p => OpCapture (fst p) (snd p)) passes) y)
          = Idle
          /\ thread_ (self (run bits (map (fun p => OpCapture (fst p) (snd p))
                                        passes) y)) = NoThread
          /\ shouldRun_ (self (run bits (map (fun p => OpCapture (fst p)
                                                        (snd p)) passes) y))
             = true
          /\ (state_ (self (run bits (map (fun p => OpCapture (fst p) (snd p))
                                         passes) y)) = AccessLost
              \/ state_ (self (run bits (map (fun p => OpCapture (fst p)
                                                          (snd p)) passes) y))
                 = Unknown)).
    { clear; induction passes as [|q passes IHq]; intros y Hy; [exact Hy|].
      change (run bits (map (fun p => OpCapture (fst p) (snd p))
                          (q :: passes)) y)
        with (run bits (map (fun p => OpCapture (fst p) (snd p)) passes)
                (step bits y (OpCapture (fst q) (snd q)))).
      destruct Hy as (Y1 & Y2 & Y3 & Y4).
      assert (E : step bits y (OpCapture (fst q) (snd q)) = y)
        by (simpl; unfold capture_step; rewrite Y2; reflexivity).
      rewrite E; apply IHq; auto. }
    right; apply Hdone.
    simpl step; rewrite Hxt, Kt; unfold resume; rewrite Kc, Hxc; simpl.
    repeat split; assumption.
Qed.

Lemma Stop_before_entry_waits_for_error_witness :
  caller (run 32 [OpStop; OpEnter; OpCapture 60 timeout_tick;
                  OpCapture 60 good_tick]
            (Start constructed_world)) = InStop
  /\ shouldRun_ (self (run 32 [OpStop; OpEnter; OpCapture 60 timeout_tick;
                               OpCapture 60 access_lost_tick]
                         (Start constructed_world))) = true.
Proof.
  split.
  - destruct (Stop_before_entry_waits_for_error 32
                [(60, timeout_tick); (60, good_tick)]
                (Start constructed_world) eq_refl eq_refl)
      as [(H & _) | (H & _)]; [exact H | discriminate H].
  - destruct (Stop_before_entry_waits_for_error 32
                [(60, timeout_tick); (60, access_lost_tick)]
                (Start constructed_world) eq_refl eq_refl)
      as [(_ & _ & _ & H) | (_ & _ & H & _)]; exact H.
Defined.

(** *** Construction, further *)

Lemma construct_thread :
  forall i w, thread_ (self (construct i w)) = thread_ (self w).
Proof.
  intros i w; unfold construct, CheckUnityAdapter, InitializeDuplication,
    InitializeDevice.
  destruct (FAILED (create_hr i)), (FAILED (output_as_hr i)); simpl;
    split_codes; simpl;
    match goal with
    | |- context [isUnityAdapter ?a ?b] => destruct (isUnityAdapter a b)
    end; reflexivity.
Qed.

Lemma construct_mismatch_state :
  forall i w,
    AdapterLuid (monitor_ (self w)) <> unityAdapterLuid i ->
    state_ (self (construct i w)) = Unsupported.
Proof.
  intros i w Hluid; unfold construct; apply CheckUnityAdapter_mismatch.
  rewrite InitializeDuplication_monitor, InitializeDevice_monitor.
  destruct (isUnityAdapter _ _) eqn:E; [|reflexivity].
  apply isUnityAdapter_eq in E; contradiction.
Qed.

(** X7.  A session constructed on an adapter other than the renderer's is in
    error and not running, [Start] does nothing to it, and no sequence of
    [Start], [Stop] and loop passes ever changes its state or asks the
    driver for a frame. *)
Theorem mismatched_session_never_captures :
  forall (i : InitInput) (w : World),
    AdapterLuid (monitor_ (self w)) <> unityAdapterLuid i ->
    thread_ (self w) = NoThread ->
    let c := construct i w in
    IsError (self c) = true
    /\ IsRunning (self c) = false
    /\ Start c = c
    /\ (forall bits ops,
          state_ (self (run bits ops c)) = Unsupported
          /\ Forall (fun e => e = ThreadJoin) (events_since c (run bits ops c))).
Proof.
  intros i w Hluid Ht; cbv zeta.
  pose proof (construct_mismatch_state i w Hluid) as Hs.
  assert (He : IsError (self (construct i w)) = true)
    by (unfold IsError; rewrite Hs; reflexivity).
  split; [exact He|]; split; [unfold IsRunning; rewrite Hs; reflexivity|].
  split; [apply Start_not_Ready; rewrite Hs; discriminate|].
  intros bits ops.
  assert (Hsp : thread_ (self (construct i w)) <> Spawned)
    by (rewrite construct_thread, Ht; discriminate).
  assert (Hth : thread_ (self (construct i w)) <> Looping)
    by (rewrite construct_thread, Ht; discriminate).
  destruct (run_in_error bits ops _ He Hsp Hth)
    as (Hs' & _ & _ & l & Hev & Hl).
  rewrite (events_since_app _ _ _ Hev), Hs', Hs; auto.
Qed.

Lemma mismatched_session_never_captures_witness :
  state_ (self (run 32 [OpStart; OpCapture 60 good_tick; OpStop]
                  (construct (mkInitInput S_OK S_OK S_OK true (mkLUID 8 0))
                             sample_world))) = Unsupported.
Proof.
  assert (Hluid : AdapterLuid (monitor_ (self sample_world)) <>
                  unityAdapterLuid
                    (mkInitInput S_OK S_OK S_OK true (mkLUID 8 0)))
    by (simpl; discriminate).
  destruct (mismatched_session_never_captures
              (mkInitInput S_OK S_OK S_OK true (mkLUID 8 0))
              sample_world Hluid eq_refl) as (_ & _ & _ & H).
  exact (proj1 (H 32 [OpStart; OpCapture 60 good_tick; OpStop])).
Defined.

(** X8.  When the monitor's output cannot be cast to [IDXGIOutput1],
    construction never calls [DuplicateOutput] and leaves [dupl_] as it was;
    on the renderer's adapter the state is then Unknown when device creation
    failed and otherwise the state the object started with. *)
Theorem construct_without_output1 :
  forall (i : InitInput) (w : World),
    FAILED (output_as_hr i) = true ->
    let c := construct i w in
    dupl_ (self c) = dupl_ (self w)
    /\ ~ In DuplicateOutput (events_since w c)
    /\ (isUnityAdapter (AdapterLuid (monitor_ (self w))) (unityAdapterLuid i)
        = true ->
        state_ (self c)
        = if FAILED (create_hr i) then Unknown else state_ (self w)).
Proof.
  intros i w Has; cbv zeta.
  unfold construct, InitializeDuplication; rewrite Has.
  unfold CheckUnityAdapter; rewrite InitializeDevice_monitor.
  unfold InitializeDevice, events_since.
  destruct (FAILED (create_hr i)),
    (isUnityAdapter (AdapterLuid (monitor_ (self w))) (unityAdapterLuid i));
    simpl; rewrite <- ?app_assoc, skipn_app_exact; simpl;
    (split; [reflexivity|]); (split; [|intro H; try discriminate H;
                                       reflexivity]);
    intro H; repeat (destruct H as [H | H]; [discriminate H|]); exact H.
Qed.

Lemma construct_without_output1_witness :
  state_ (self (construct
                  (mkInitInput E_ACCESSDENIED E_INVALIDARG S_OK true
                     (mkLUID 7 0))
                  sample_world)) = Unknown.
Proof.
  destruct (construct_without_output1
              (mkInitInput E_ACCESSDENIED E_INVALIDARG S_OK true (mkLUID 7 0))
              sample_world eq_refl) as (_ & _ & H).
  exact (H eq_refl).
Defined.

(** X9.  A session without a duplication handle, or without a device,
    ignores every tick: no run of ticks calls the driver or changes
    anything. *)
Theorem ticks_without_handle :
  forall (bits : Z) (ts : list (Z * TickInput)) (w : World),
    dupl_ (self w) && device_ (self w) = false ->
    ticks bits ts w = w.
Proof.
  intros bits ts w H; induction ts as [|t ts IH]; [reflexivity|].
  change (ticks bits (t :: ts) w)
    with (ticks bits ts (Duplicate bits (fst t) (snd t) w)).
  rewrite Duplicate_guarded by exact H; exact IH.
Qed.

Lemma ticks_without_handle_witness :
  ticks 32 [(16, good_tick); (16, timeout_tick)] sample_world = sample_world.
Proof.
  exact (ticks_without_handle 32 [(16, good_tick); (16, timeout_tick)]
           sample_world eq_refl).
Defined.

(** *** The calls of a tick *)

Lemma calls_app : forall a b, calls (a ++ b) = calls a ++ calls b.
Proof. intros a b; unfold calls; apply filter_app. Qed.

Lemma rects_failure_log_is_a_log :
  forall fn hr, is_log (rects_failure_log fn hr) = true.
Proof. intros fn hr; unfold rects_failure_log; split_codes; reflexivity. Qed.

Lemma Release_calls :
  forall hr w,
    exists l,
      events (Release hr w) = events w ++ l /\ calls l = release_calls w.
Proof.
  intros hr w; unfold Release, release_calls.
  destruct (isFrameAcquired_ (self w)); simpl.
  - destruct (FAILED hr); split_codes; simpl; rewrite <- ?app_assoc;
      eexists; split; reflexivity.
  - exists []; rewrite app_nil_r; auto.
Qed.

Lemma acquire_failure_calls :
  forall hr w,
    exists l, events (acquire_failure hr w) = events w ++ l /\ calls l = [].
Proof.
  intros hr w; unfold acquire_failure; split_codes; simpl.
  all: try (exists []; rewrite app_nil_r; auto; fail).
  all: eexists; split; reflexivity.
Qed.

Lemma UpdateCursor_calls :
  forall t fi w,
    cursorMonitorId (UpdateCursor t fi w)
    = (if PointerPosition_Visible fi then GetId (monitor_ (self w))
       else cursorMonitorId w)
    /\ exists l,
         events (UpdateCursor t fi w) = events w ++ l
         /\ calls l = cursor_calls t fi w.
Proof.
  intros t fi w; unfold UpdateCursor, cursor_calls.
  destruct (PointerPosition_Visible fi); simpl.
  - rewrite Z.eqb_refl; simpl; split; [reflexivity|].
    rewrite <- app_assoc; eexists; split; reflexivity.
  - destruct (GetId (monitor_ (self w)) =? cursorMonitorId w); simpl;
      (split; [reflexivity|]).
    + rewrite <- app_assoc; eexists; split; reflexivity.
    + exists []; rewrite app_nil_r; auto.
Qed.

Lemma UpdateMetadata_calls :
  forall total move dirty w,
    exists l,
      events (UpdateMetadata total move dirty w) = events w ++ l
      /\ calls l
         = metadata_calls (metaData_ (self (UpdateMetadata total move dirty w))).
Proof.
  intros total move dirty w.
  unfold UpdateMetadata, metadata_calls.
  set (w1 := modify_metaData _ w).
  assert (Hb : buffer (metaData_ (self w1))
               = ExpandIfNeeded total (buffer (metaData_ (self w))))
    by reflexivity.
  destruct (Empty (buffer (metaData_ (self w1)))) eqn:E; simpl negb; cbv iota.
  - rewrite E; exists []; rewrite app_nil_r; auto.
  - destruct (UpdateMoveRects_effect move w1) as (S1 & _ & _).
    destruct (UpdateDirtyRects_effect dirty (UpdateMoveRects move w1))
      as (S2 & _ & _).
    cbv zeta in S1, S2.
    assert (Hbuf : buffer (metaData_ (self (UpdateDirtyRects dirty
                                              (UpdateMoveRects move w1))))
                   = buffer (metaData_ (self w1)))
      by (rewrite S2, S1; destruct (rects_size move), (rects_size dirty);
          reflexivity).
    assert (Hmv : moveRectSize
                    (metaData_ (self (UpdateDirtyRects dirty
                                        (UpdateMoveRects move w1))))
                  = moveRectSize (metaData_ (self (UpdateMoveRects move w1))))
      by (rewrite S2; destruct (rects_size dirty); reflexivity).
    assert (Hbuf1 : buffer (metaData_ (self (UpdateMoveRects move w1)))
                    = buffer (metaData_ (self w1)))
      by (rewrite S1; destruct (rects_size move); reflexivity).
    rewrite Hbuf, Hmv, E.
    pose proof (rects_failure_log_is_a_log "UpdateMoveRects" (rects_hr move))
      as L1.
    pose proof (rects_failure_log_is_a_log "UpdateDirtyRects" (rects_hr dirty))
      as L2.
    unfold UpdateDirtyRects at 1.
    rewrite Hbuf1.
    set (mv := moveRectSize (metaData_ (self (UpdateMoveRects move w1)))).
    set (call2 := GetFrameDirtyRects _ mv).
    assert (Hev1 : exists l1,
               events (UpdateMoveRects move w1)
               = events w
                 ++ GetFrameMoveRects (Size (buffer (metaData_ (self w1)))) 0
                    :: l1
               /\ calls l1 = []).
    { unfold UpdateMoveRects.
      destruct (rects_size move), (FAILED (rects_hr move)); simpl;
        rewrite <- ?app_assoc; simpl; eexists; (split; [reflexivity|]);
        unfold calls; simpl; rewrite ?L1; reflexivity. }
    destruct Hev1 as (l1 & Hev1 & Hc1).
    destruct (rects_size dirty), (FAILED (rects_hr dirty)); simpl;
      rewrite Hev1, <- ?app_assoc; simpl;
      eexists; (split; [reflexivity|]);
      unfold calls in *; simpl; rewrite filter_app, Hc1; simpl;
      rewrite ?L2; reflexivity.
Qed.

Lemma Release_monitor_cursor :
  forall hr w,
    monitor_ (self (Release hr w)) = monitor_ (self w)
    /\ cursorMonitorId (Release hr w) = cursorMonitorId w.
Proof.
  intros hr w; destruct (Release_self hr w) as [S C].
  split; [rewrite S; reflexivity | exact C].
Qed.

(** X10.  Of the calls [ReleaseFrame], [AcquireNextFrame], [CopyResource],
    the cursor's [UpdateBuffer] and [UpdateTexture], [GetFrameMoveRects] and
    [GetFrameDirtyRects], a tick past its guard makes these, in this order:
    [ReleaseFrame] when a frame is held, then [AcquireNextFrame] with the
    timeout; and, only when the tick publishes: one [CopyResource] from the
    acquired texture into the shared texture, the cursor update (buffer,
    then texture) when the pointer is visible or this monitor already owns
    the cursor, and the two rectangle requests when the metadata buffer is
    not empty.  The other calls of a tick (the cast of the resource, the
    request for the shared texture, the immediate context, the manager) are
    not in the trace. *)
Theorem Duplicate_calls :
  forall (bits timeout : Z) (i : TickInput) (w : World),
    dupl_ (self w) = true -> device_ (self w) = true ->
    let w' := Duplicate bits timeout i w in
    (publishes i = false ->
     calls (events_since w w')
     = release_calls w ++ [AcquireNextFrame timeout])
    /\ (forall shared,
          publishes i = true -> sharedTexture i = Some shared ->
          calls (events_since w w')
          = release_calls w
            ++ [AcquireNextFrame timeout; CopyResource shared (resource i)]
            ++ cursor_calls shared (frameInfo i) w
            ++ metadata_calls (metaData_ (self w'))).
Proof.
  intros bits timeout i w Hd Hv; cbv zeta.
  destruct (Release_calls (release_hr i) w) as (lr & Er & Cr).
  destruct (Release_monitor_cursor (release_hr i) w) as [Hm Hc].
  split.
  - intro Hp.
    destruct (publishes_false i Hp) as [Hf | [Hf Hu]].
    + rewrite (Duplicate_failed bits timeout i w Hd Hv Hf).
      match goal with
      | |- context [acquire_failure ?h ?x] =>
          destruct (acquire_failure_calls h x) as (l & E & C)
      end.
      rewrite (events_since_app _ _ (lr ++ AcquireNextFrame timeout :: l)).
      * rewrite calls_app, Cr; unfold calls at 1; simpl.
        fold (calls l); rewrite C; reflexivity.
      * rewrite E; simpl; rewrite Er, <- !app_assoc; reflexivity.
    + destruct (Duplicate_unpublished bits timeout i w Hd Hv Hf Hu)
        as (msg & E).
      rewrite (events_since_app _ _
                 (lr ++ [AcquireNextFrame timeout; DebugError msg])).
      * rewrite calls_app, Cr; reflexivity.
      * rewrite E; simpl; rewrite Er, <- !app_assoc; reflexivity.
  - intros shared Hp Hs.
    destruct (publishes_inv i Hp) as (Hf & Ht & _).
    rewrite (Duplicate_published bits timeout i w shared Hd Hv Hf Ht Hs).
    set (y := emit (CopyResource shared (resource i))
                (modify (set_isFrameAcquired_ true)
                   (emit (AcquireNextFrame timeout)
                      (Release (release_hr i) w)))).
    set (x := UpdateCursor shared (frameInfo i) y).
    destruct (UpdateMetadata_calls (TotalMetadataBufferSize (frameInfo i))
                (moveRects i) (dirtyRects i) x) as (lm & Em & Cm).
    destruct (UpdateCursor_calls shared (frameInfo i) y) as (_ & lc & Ec & Cc).
    assert (Hcur : cursor_calls shared (frameInfo i) y
                   = cursor_calls shared (frameInfo i) w)
      by (unfold cursor_calls; subst y; simpl; rewrite Hm, Hc; reflexivity).
    change (metaData_ (self (modify (publish bits shared (frameInfo i)) ?z)))
      with (metaData_ (self z)).
    rewrite (events_since_app _ _
               (lr ++ [AcquireNextFrame timeout;
                       CopyResource shared (resource i)] ++ lc ++ lm)).
    + rewrite !calls_app, Cr, Cc, Cm, Hcur; reflexivity.
    + change (events (modify (publish bits shared (frameInfo i)) ?z))
        with (events z).
      rewrite Em; unfold x; rewrite Ec; unfold y; simpl.
      rewrite Er, <- !app_assoc; reflexivity.
Qed.

Lemma Duplicate_calls_witness :
  calls (events_since holding_world (Duplicate 32 16 good_tick holding_world))
  = [ReleaseFrame; AcquireNextFrame 16; CopyResource 12 11;
     CursorUpdateBuffer; CursorUpdateTexture 12;
     GetFrameMoveRects 4096 0; GetFrameDirtyRects 4048 48].
Proof.
  rewrite (proj2 (Duplicate_calls 32 16 good_tick holding_world
                    eq_refl eq_refl) 12 eq_refl eq_refl).
  reflexivity.
Defined.

(** X11.  After a tick the cursor belongs to this session's monitor when the
    tick published a frame whose pointer is visible; after any other tick
    the owner of the cursor is unchanged. *)
Theorem Duplicate_cursor_owner :
  forall (bits timeout : Z) (i : TickInput) (w : World),
    cursorMonitorId (Duplicate bits timeout i w)
    = if dupl_ (self w) && device_ (self w) && publishes i
         && PointerPosition_Visible (frameInfo i)
      then GetId (monitor_ (self w))
      else cursorMonitorId w.
Proof.
  intros bits timeout i w.
  destruct (dupl_ (self w) && device_ (self w)) eqn:G;
    [|rewrite Duplicate_guarded by exact G; reflexivity].
  apply andb_true_iff in G; destruct G as [Hd Hv].
  destruct (Release_monitor_cursor (release_hr i) w) as [Hm Hc].
  simpl andb.
  destruct (publishes i) eqn:Hp; simpl andb.
  - destruct (publishes_inv i Hp) as (Hf & Ht & shared & Hs).
    rewrite (Duplicate_published bits timeout i w shared Hd Hv Hf Ht Hs).
    change (cursorMonitorId (modify (publish bits shared (frameInfo i)) ?z))
      with (cursorMonitorId z).
    match goal with
    | |- context [UpdateMetadata ?t ?m ?d ?x] =>
        destruct (UpdateMetadata_effect t m d x) as (_ & C & _)
    end.
    cbv zeta in C; rewrite C.
    match goal with
    | |- context [UpdateCursor ?t ?f ?x] =>
        destruct (UpdateCursor_calls t f x) as (C' & _)
    end.
    rewrite C'; simpl; rewrite Hm, Hc; reflexivity.
  - destruct (publishes_false i Hp) as [Hf | [Hf Hu]].
    + rewrite (Duplicate_failed bits timeout i w Hd Hv Hf).
      match goal with
      | |- context [acquire_failure ?h ?x] =>
          destruct (acquire_failure_effect h x) as (_ & C & _)
      end.
      rewrite C; exact Hc.
    + destruct (Duplicate_unpublished bits timeout i w Hd Hv Hf Hu)
        as (msg & E).
      rewrite E; exact Hc.
Qed.

(** *** The published frame and the frame counter over a run *)

Lemma Duplicate_consistent :
  forall bits timeout i w,
    (published_consistent bits (self w) ->
     published_consistent bits (self (Duplicate bits timeout i w)))
    /\ (dupl_ (self w) = true -> device_ (self w) = true ->
        publishes i = true ->
        published_consistent bits (self (Duplicate bits timeout i w))).
Proof.
  intros bits timeout i w.
  assert (Hpub : dupl_ (self w) = true -> device_ (self w) = true ->
                 publishes i = true ->
                 published_consistent bits (self (Duplicate bits timeout i w))).
  { intros Hd Hv Hp.
    destruct (publishes_inv i Hp) as (Hf & Ht & shared & Hs).
    rewrite (Duplicate_published_self bits timeout i w shared Hd Hv Hf Ht Hs).
    split; reflexivity. }
  split; [|exact Hpub].
  intro Hc.
  destruct (dupl_ (self w) && device_ (self w) && publishes i) eqn:G.
  - apply andb_true_iff in G; destruct G as [G Hp].
    apply andb_true_iff in G; destruct G as [Hd Hv].
    apply Hpub; assumption.
  - destruct (Duplicate_not_publishing bits timeout i w G) as (F & N & M).
    cbv zeta in F, N, M; unfold GetLastFrame in F.
    unfold published_consistent; rewrite F, N, M; exact Hc.
Qed.

Lemma ticks_consistent :
  forall bits ts w,
    published_consistent bits (self w) ->
    published_consistent bits (self (ticks bits ts w)).
Proof.
  intros bits ts; induction ts as [|t ts IH]; intros w Hc; [exact Hc|].
  change (ticks bits (t :: ts) w)
    with (ticks bits ts (Duplicate bits (fst t) (snd t) w)).
  apply IH; apply (proj1 (Duplicate_consistent bits (fst t) (snd t) w));
    exact Hc.
Qed.

(** X12.  Once a tick has published, and from then on through every run of
    ticks, the frame read through [GetLastFrame] agrees with the session:
    the frame counter is one step past the frame's id, and the frame carries
    the session's current metadata. *)
Theorem published_frame_is_consistent :
  forall (bits : Z) (ts : list (Z * TickInput)) (w : World),
    (published_consistent bits (self w) ->
     published_consistent bits (self (ticks bits ts w)))
    /\ (dupl_ (self w) = true -> device_ (self w) = true ->
        publishing_ticks ts <> [] ->
        published_consistent bits (self (ticks bits ts w))).
Proof.
  intros bits ts w; split; [apply ticks_consistent|].
  revert w; induction ts as [|t ts IH]; intros w Hd Hv Hne;
    [contradiction|].
  destruct (Duplicate_keeps_handles bits (fst t) (snd t) w) as [Kd Kv].
  change (ticks bits (t :: ts) w)
    with (ticks bits ts (Duplicate bits (fst t) (snd t) w)).
  rewrite publishing_ticks_cons in Hne.
  destruct (publishes (snd t)) eqn:Hp.
  - apply ticks_consistent.
    apply (proj2 (Duplicate_consistent bits (fst t) (snd t) w)); assumption.
  - apply IH; congruence.
Qed.

Lemma published_frame_is_consistent_witness :
  published_consistent 32
    (self (ticks 32 [(16, timeout_tick); (16, good_tick);
                     (16, null_shared_tick)] constructed_world)).
Proof.
  apply (proj2 (published_frame_is_consistent 32
                  [(16, timeout_tick); (16, good_tick);
                   (16, null_shared_tick)] constructed_world));
    [reflexivity | reflexivity | discriminate].
Defined.

(** X13.  The frame counter counts the publishing ticks, modulo 2^bits:
    ticks that fail, or that return early, use up no sequence id. *)
Theorem frame_counter_counts_publishing :
  forall (bits : Z) (ts : list (Z * TickInput)) (w : World),
    0 < 2 ^ bits ->
    dupl_ (self w) = true -> device_ (self w) = true ->
    0 <= lastFrameId_ (self w) < 2 ^ bits ->
    lastFrameId_ (self (ticks bits ts w))
    = (lastFrameId_ (self w) + Z.of_nat (List.length (publishing_ticks ts)))
      mod 2 ^ bits.
Proof.
  intros bits ts w Hpos; revert w.
  induction ts as [|t ts IH]; intros w Hd Hv Hr.
  - simpl; rewrite Z.add_0_r, Z.mod_small by exact Hr; reflexivity.
  - destruct (Duplicate_keeps_handles bits (fst t) (snd t) w) as [Kd Kv].
    change (ticks bits (t :: ts) w)
      with (ticks bits ts (Duplicate bits (fst t) (snd t) w)).
    rewrite publishing_ticks_cons.
    destruct (publishes (snd t)) eqn:Hp.
    + destruct (Duplicate_publishing bits (fst t) (snd t) w Hd Hv Hp)
        as (_ & Hnext & _); cbv zeta in Hnext.
      rewrite IH; try congruence.
      * rewrite Hnext; unfold next_frame_id.
        rewrite Zplus_mod_idemp_l; f_equal.
        cbn [List.length]; lia.
      * rewrite Hnext; unfold next_frame_id.
        apply Z.mod_pos_bound; exact Hpos.
    + destruct (Duplicate_not_publishing bits (fst t) (snd t) w)
        as (_ & Hsame & _);
        [rewrite Hp, andb_false_r; reflexivity|].
      cbv zeta in Hsame.
      rewrite IH, Hsame; congruence.
Qed.

Lemma frame_counter_counts_publishing_witness :
  lastFrameId_
    (self (ticks 32 [(16, good_tick); (16, timeout_tick);
                     (16, null_shared_tick); (16, good_tick)]
             wrapping_world))
  = 1.
Proof.
  assert (Hpos : 0 < 2 ^ 32) by (vm_compute; reflexivity).
  assert (Hr : 0 <= lastFrameId_ (self wrapping_world) < 2 ^ 32)
    by (split; vm_compute; [discriminate | reflexivity]).
  rewrite (frame_counter_counts_publishing 32 _ wrapping_world
             Hpos eq_refl eq_refl Hr).
  reflexivity.
Defined.

(** *** Held frames *)

Lemma Duplicate_held :
  forall bits timeout i w,
    dupl_ (self w) = true -> device_ (self w) = true ->
    isFrameAcquired_ (self (Duplicate bits timeout i w))
    = negb (FAILED (acquire_hr i)).
Proof.
  intros bits timeout i w Hd Hv.
  destruct (FAILED (acquire_hr i)) eqn:Hf.
  - rewrite (Duplicate_failed bits timeout i w Hd Hv Hf).
    match goal with
    | |- context [acquire_failure ?h ?x] =>
        destruct (acquire_failure_effect h x) as (S & _)
    end.
    cbv zeta in S; rewrite S; simpl.
    apply Release_clears_flag.
  - destruct (publishes i) eqn:Hp.
    + destruct (publishes_inv i Hp) as (_ & Ht & shared & Hs).
      rewrite (Duplicate_published_self bits timeout i w shared Hd Hv Hf Ht Hs).
      reflexivity.
    + destruct (publishes_false i Hp) as [Hf' | [_ Hu]];
        [rewrite Hf in Hf'; discriminate Hf'|].
      destruct (Duplicate_unpublished bits timeout i w Hd Hv Hf Hu)
        as (msg & E).
      rewrite E; reflexivity.
Qed.

Lemma Duplicate_releases :
  forall bits timeout i w,
    dupl_ (self w) = true -> device_ (self w) = true ->
    exists l,
      events (Duplicate bits timeout i w) = events w ++ l
      /\ releases l = held w.
Proof.
  intros bits timeout i w Hd Hv.
  destruct (Duplicate_events bits timeout i w Hd Hv) as (l & E & _ & F).
  destruct (Release_events (release_hr i) w) as (r & Er & _ & Fr).
  exists (r ++ AcquireNextFrame timeout :: l); split.
  - rewrite E, Er, <- app_assoc; reflexivity.
  - unfold releases, held; rewrite filter_app; simpl; rewrite Fr, F.
    destruct (isFrameAcquired_ (self w)); reflexivity.
Qed.

Lemma releases_app : forall a b, releases (a ++ b) = releases a + releases b.
Proof.
  intros a b; unfold releases.
  rewrite filter_app, length_app; lia.
Qed.

Lemma ticks_releases :
  forall bits ts w,
    dupl_ (self w) = true -> device_ (self w) = true ->
    exists l,
      events (ticks bits ts w) = events w ++ l
      /\ releases l + held (ticks bits ts w)
         = held w + Z.of_nat (List.length (acquiring_ticks ts)).
Proof.
  intros bits ts; induction ts as [|t ts IH]; intros w Hd Hv.
  - exists []; rewrite app_nil_r; split; [reflexivity|].
    unfold releases; simpl; lia.
  - destruct (Duplicate_keeps_handles bits (fst t) (snd t) w) as [Kd Kv].
    change (ticks bits (t :: ts) w)
      with (ticks bits ts (Duplicate bits (fst t) (snd t) w)).
    destruct (Duplicate_releases bits (fst t) (snd t) w Hd Hv)
      as (l1 & E1 & R1).
    destruct (IH (Duplicate bits (fst t) (snd t) w)) as (l2 & E2 & R2);
      try congruence.
    exists (l1 ++ l2); split; [rewrite E2, E1, app_assoc; reflexivity|].
    rewrite releases_app, R1.
    assert (Hh : held (Duplicate bits (fst t) (snd t) w)
                 + Z.of_nat (List.length (acquiring_ticks ts))
                 = Z.of_nat (List.length (acquiring_ticks (t :: ts)))).
    { unfold held; rewrite (Duplicate_held bits (fst t) (snd t) w Hd Hv).
      unfold acquiring_ticks; simpl filter.
      destruct (FAILED (acquire_hr (snd t))); simpl negb; cbv iota;
        cbn [List.length]; lia. }
    lia.
Qed.

(** X14.  No acquired frame is lost and none is released twice: over any run
    of ticks, the [ReleaseFrame] calls made plus the frame still held at the
    end equal the frame held at the start plus the successful acquisitions;
    and after each tick a frame is held exactly when that tick's acquisition
    succeeded. *)
Theorem acquired_frames_are_released :
  forall (bits : Z) (ts : list (Z * TickInput)) (w : World),
    dupl_ (self w) = true -> device_ (self w) = true ->
    let w' := ticks bits ts w in
    releases (events_since w w') + held w'
    = held w + Z.of_nat (List.length (acquiring_ticks ts))
    /\ (forall timeout i,
          isFrameAcquired_ (self (Duplicate bits timeout i w))
          = negb (FAILED (acquire_hr i))).
Proof.
  intros bits ts w Hd Hv; cbv zeta; split.
  - destruct (ticks_releases bits ts w Hd Hv) as (l & E & R).
    rewrite (events_since_app _ _ _ E); exact R.
  - intros timeout i; apply Duplicate_held; assumption.
Qed.

Lemma acquired_frames_are_released_witness :
  releases (events_since constructed_world
              (ticks 32 [(16, good_tick); (16, null_shared_tick);
                         (16, timeout_tick); (16, good_tick)]
                 constructed_world))
  + held (ticks 32 [(16, good_tick); (16, null_shared_tick);
                    (16, timeout_tick); (16, good_tick)]
            constructed_world)
  = 3.
Proof.
  rewrite (proj1 (acquired_frames_are_released 32
                    [(16, good_tick); (16, null_shared_tick);
                     (16, timeout_tick); (16, good_tick)]
                    constructed_world eq_refl eq_refl)).
  reflexivity.
Defined.

(** X15.  A frame is released once: a second [Release], whatever the driver
    would answer, changes nothing and calls nothing. *)
Theorem Release_twice :
  forall (hr1 hr2 : HRESULT) (w : World),
    Release hr2 (Release hr1 w) = Release hr1 w.
Proof.
  intros hr1 hr2 w; apply Release_not_held, Release_clears_flag.
Qed.

(** *** How the capture loop ends *)

(** X16.  A loop pass of a running session, its run flag set, either leaves
    the session running with its thread in the loop, or ends the loop in
    AccessLost or Unknown: the thread has exited, the session is in error,
    and the state is the one the tick left. *)
Theorem capture_step_outcomes :
  forall (bits frameRate : Z) (i : TickInput) (w : World),
    thread_ (self w) = Looping ->
    state_ (self w) = Running ->
    shouldRun_ (self w) = true ->
    let w' := capture_step bits frameRate i w in
    (state_ (self w') = Running /\ thread_ (self w') = Looping)
    \/ (thread_ (self w') = Exited
        /\ IsError (self w') = true
        /\ (state_ (self w') = AccessLost \/ state_ (self w') = Unknown)
        /\ state_ (self w')
           = state_ (self (Duplicate bits (UINT_wrap (1000 / frameRate)) i w))).
Proof.
  intros bits frameRate i w Ht Hs Hr; cbv zeta.
  unfold capture_step, loop_pass; rewrite Ht, Hr; simpl negb; cbv iota.
  set (t := UINT_wrap (1000 / frameRate)).
  pose proof (Duplicate_control bits t i w) as C.
  unfold control in C; injection C as _ _ _ _ Ct.
  destruct (State_eqb (state_ (self (Duplicate bits t i w))) Running) eqn:E;
    simpl negb; cbv beta iota.
  - left; apply State_eqb_eq in E; split; congruence.
  - right; apply State_eqb_neq in E.
    assert (Hleave : state_ (thread_leave (self (Duplicate bits t i w)))
                     = state_ (self (Duplicate bits t i w))).
    { rewrite thread_leave_state.
      destruct (State_eqb _ Running) eqn:E'; [|reflexivity].
      apply State_eqb_eq in E'; contradiction. }
    change (thread_ (self (modify (set_thread_ Exited) ?x))) with Exited.
    change (self (modify (set_thread_ Exited) (modify thread_leave ?x)))
      with (set_thread_ Exited (thread_leave (self x))).
    unfold IsError.
    change (state_ (set_thread_ Exited ?d)) with (state_ d).
    rewrite Hleave.
    destruct (Duplicate_state_cases bits t i w) as [H | [H | H]].
    + rewrite Hs in H; contradiction.
    + rewrite H; repeat split; auto.
    + rewrite H; repeat split; auto.
Qed.

Lemma capture_step_outcomes_witness :
  thread_ (self (capture_step 32 60 timeout_after_lost_release holding_world))
  = Exited
  /\ state_ (self (capture_step 32 60 timeout_after_lost_release
                     holding_world)) = AccessLost.
Proof.
  destruct (capture_step_outcomes 32 60 timeout_after_lost_release
              holding_world eq_refl eq_refl eq_refl)
    as [[H _] | (Ht & _ & _ & Hs)].
  - discriminate H.
  - split; [exact Ht | rewrite Hs; reflexivity].
Defined.

(** *** What a publishing tick publishes *)

(** X17.  The frame published by a tick carries the value the frame counter
    had before the tick, the shared texture the tick copied into, the frame
    information the driver returned for this acquisition, and the metadata
    as this tick's extraction left it; the frame published before is
    overwritten. *)
Theorem published_frame_contents :
  forall (bits timeout : Z) (i : TickInput) (w : World),
    dupl_ (self w) = true -> device_ (self w) = true ->
    publishes i = true ->
    let w' := Duplicate bits timeout i w in
    GetLastFrame (self w')
    = mkFrame (lastFrameId_ (self w)) (sharedTexture i) (frameInfo i)
              (metaData_ (self w'))
    /\ metaData_ (self w')
       = metadata_after (TotalMetadataBufferSize (frameInfo i))
           (moveRects i) (dirtyRects i) (metaData_ (self w)).
Proof.
  intros bits timeout i w Hd Hv Hp; cbv zeta.
  destruct (publishes_inv i Hp) as (Hf & Ht & shared & Hs).
  rewrite (Duplicate_published_self bits timeout i w shared Hd Hv Hf Ht Hs).
  destruct (Release_frames (release_hr i) w) as (_ & F2 & _).
  unfold GetLastFrame; simpl; rewrite F2, Hs; auto.
Qed.

Lemma published_frame_contents_witness :
  GetLastFrame (self (Duplicate 32 16 small_tick holding_world))
  = mkFrame 1 (Some 12) (mkFrameInfo true 1024)
      (mkMetadata (mkBuffer 4096) 48 32).
Proof.
  rewrite (proj1 (published_frame_contents 32 16 small_tick holding_world
                    eq_refl eq_refl eq_refl)).
  reflexivity.
Defined.
